(** * Valley Farm 3D: the farm simulation state machine of [src/App.tsx]

    The React component [App] keeps one [GameState] value.  Four kinds of
    user events change it: a tool button, a click on a farm plot
    ([handlePlotClick]), a click on a crop ([handleCropClick]) and the
    sleep button ([nextDay]).  Every handler reads the state of the
    current render ([gameState]) to decide which [setGameState] call to
    make, and the functional updater [prev => ...] of that call is then
    run on the stored state.  The embedding keeps the two steps apart:
    a handler returns an [Update] and [applyUpdate] is the updater.

    Numbers are integers ([Z]; the source computes on integers far below
    2^53); template literals print them in decimal ([pretty]);
    [Set<string>] is a [gset string]; the crop array is a list.  The two
    values a plot click draws from the environment, [Date.now()] and the
    crop type [types[Math.floor(Math.random() * types.length)]], are
    inputs of the event. *)

From Stdlib Require Import Ascii.
From stdpp Require Import base numbers list strings pretty gmap sets.

Local Open Scope Z_scope.

(** ** Game state types *)

Inductive CropType := carrot | tomato | corn | turnip.

Inductive Season := Spring | Summer | Fall | Winter.

Inductive Tool := hoe | water | seed | harvest.

Global Instance CropType_eq_dec : EqDecision CropType.
Proof. solve_decision. Defined.

Global Instance Season_eq_dec : EqDecision Season.
Proof. solve_decision. Defined.

Global Instance Tool_eq_dec : EqDecision Tool.
Proof. solve_decision. Defined.

Module CropData.

Record t := mk {
  id : string;
  x : Z;
  z : Z;
  type : CropType;
  stage : Z;  (* 0 = seed, 1 = sprout, 2 = growing, 3 = ready *)
  plantedDay : Z
}.

Global Instance eq_dec : EqDecision t.
Proof. solve_decision. Defined.

(** [{ ...c, stage: v }] *)
Definition with_stage (c : t) (v : Z) : t :=
  {| id := id c; x := x c; z := z c; type := type c;
     stage := v; plantedDay := plantedDay c |}.

End CropData.

(** [season] holds the result of an array read, which JavaScript leaves
    [undefined] out of range: [None] stands for [undefined]. *)
Record GameState := mkGameState {
  day : Z;
  season : option Season;
  gold : Z;
  energy : Z;
  selectedTool : Tool;
  crops : list CropData.t;
  tiledPlots : gset string
}.

Definition CROP_PRICES (ty : CropType) : Z :=
  match ty with
  | carrot => 35
  | tomato => 60
  | corn => 50
  | turnip => 40
  end.

(** The argument of [useState] in [App]. *)
Definition initialState : GameState :=
  {| day := 1; season := Some Spring; gold := 500; energy := 100;
     selectedTool := hoe; crops := []; tiledPlots := ∅ |}.

(** ** Template literals *)

(** [`${x},${z}`] *)
Definition plotKey (x z : Z) : string :=
  pretty x +:+ "," +:+ pretty z.

(** [`${x}-${z}-${Date.now()}`] *)
Definition cropId (x z now : Z) : string :=
  pretty x +:+ "-" +:+ pretty z +:+ "-" +:+ pretty now.

(** ** State updaters: the functions passed to [setGameState] *)

Inductive Update :=
| NoUpdate
| TillPlot (key : string)
| PlantCrop (newCrop : CropData.t)
| WaterCrop (target : string)
| HarvestCrop (target : string) (earnedGold : Z)
| PickTool (tool : Tool)
| Sleep.

Definition seasons : list Season := [Spring; Summer; Fall; Winter].

(** [l[i]] for an integer index: [undefined] outside the array. *)
Definition js_index {A} (l : list A) (i : Z) : option A :=
  if i <? 0 then None else l !! Z.to_nat i.

Definition applyUpdate (u : Update) (prev : GameState) : GameState :=
  match u with
  | NoUpdate => prev
  | TillPlot key =>
      {| day := day prev; season := season prev; gold := gold prev;
         selectedTool := selectedTool prev; crops := crops prev;
         tiledPlots := tiledPlots prev ∪ {[ key ]};
         energy := energy prev - 5 |}
  | PlantCrop newCrop =>
      {| day := day prev; season := season prev;
         selectedTool := selectedTool prev; tiledPlots := tiledPlots prev;
         crops := crops prev ++ [newCrop];
         gold := gold prev - 20;
         energy := energy prev - 2 |}
  | WaterCrop target =>
      {| day := day prev; season := season prev; gold := gold prev;
         selectedTool := selectedTool prev; tiledPlots := tiledPlots prev;
         crops := (λ c, if decide (CropData.id c = target)
                        then CropData.with_stage c
                               (Z.min (CropData.stage c + 1) 3)
                        else c) <$> crops prev;
         energy := energy prev - 3 |}
  | HarvestCrop target earnedGold =>
      {| day := day prev; season := season prev; energy := energy prev;
         selectedTool := selectedTool prev; tiledPlots := tiledPlots prev;
         crops := filter (λ c, CropData.id c ≠ target) (crops prev);
         gold := gold prev + earnedGold |}
  | PickTool tool =>
      {| day := day prev; season := season prev; gold := gold prev;
         energy := energy prev; crops := crops prev;
         tiledPlots := tiledPlots prev;
         selectedTool := tool |}
  | Sleep =>
      let newDay := day prev + 1 in
      let seasonIndex := Z.rem ((newDay - 1) `div` 28) 4 in
      {| gold := gold prev; selectedTool := selectedTool prev;
         crops := crops prev; tiledPlots := tiledPlots prev;
         day := newDay;
         season := js_index seasons seasonIndex;
         energy := 100 |}
  end.

(** ** Event handlers *)

Definition handlePlotClick (gameState : GameState) (x z : Z)
    (now : Z) (rnd : CropType) : Update :=
  let key := plotKey x z in
  let existingCrop :=
    find (λ c, (CropData.x c =? x) && (CropData.z c =? z)) (crops gameState) in
  if bool_decide (selectedTool gameState = hoe)
     && negb (bool_decide (key ∈ tiledPlots gameState))
     && (energy gameState >=? 5)
  then TillPlot key
  else if bool_decide (selectedTool gameState = seed)
          && bool_decide (key ∈ tiledPlots gameState)
          && negb (bool_decide (is_Some existingCrop))
          && (gold gameState >=? 20)
          && (energy gameState >=? 2)
  then PlantCrop {| CropData.id := cropId x z now;
                    CropData.x := x;
                    CropData.z := z;
                    CropData.type := rnd;
                    CropData.stage := 0;
                    CropData.plantedDay := day gameState |}
  else match existingCrop with
       | Some c =>
           if bool_decide (selectedTool gameState = water)
              && (CropData.stage c <? 3)
              && (energy gameState >=? 3)
           then WaterCrop (CropData.id c)
           else NoUpdate
       | None => NoUpdate
       end.

Definition handleCropClick (gameState : GameState) (crop : CropData.t)
    : Update :=
  if bool_decide (selectedTool gameState = harvest)
     && (CropData.stage crop =? 3)
  then HarvestCrop (CropData.id crop) (CROP_PRICES (CropData.type crop))
  else if bool_decide (selectedTool gameState = water)
          && (CropData.stage crop <? 3)
          && (energy gameState >=? 3)
  then WaterCrop (CropData.id crop)
  else NoUpdate.

(** ** The four operations

    React renders again after every click, so a handler always sees the
    stored state: an operation runs the handler on [s] and the updater
    it chose on the same [s]. *)

Definition selectTool (s : GameState) (tool : Tool) : GameState :=
  applyUpdate (PickTool tool) s.

Definition interactPlot (s : GameState) (x z now : Z) (rnd : CropType)
    : GameState :=
  applyUpdate (handlePlotClick s x z now rnd) s.

Definition interactCrop (s : GameState) (crop : CropData.t) : GameState :=
  applyUpdate (handleCropClick s crop) s.

Definition advanceDay (s : GameState) : GameState :=
  applyUpdate Sleep s.

Inductive Event :=
| SelectTool (tool : Tool)
| PlotClick (x z now : Z) (rnd : CropType)
| CropClick (crop : CropData.t)
| NextDay.

Definition step (s : GameState) (e : Event) : GameState :=
  match e with
  | SelectTool tool => selectTool s tool
  | PlotClick x z now rnd => interactPlot s x z now rnd
  | CropClick crop => interactCrop s crop
  | NextDay => advanceDay s
  end.

Definition run (s : GameState) (evs : list Event) : GameState :=
  foldl step s evs.

(** [n] nights in a row. *)
Definition sleep (n : nat) (s : GameState) : GameState :=
  Nat.iter n advanceDay s.

(** ** Reachable states *)

(** The scene offers a click handler for each crop of the current render
    only, so a crop click always carries a crop of the state. *)
Definition enabled (s : GameState) (e : Event) : Prop :=
  match e with
  | CropClick crop => crop ∈ crops s
  | _ => True
  end.

Global Instance enabled_dec s e : Decision (enabled s e).
Proof. destruct e; simpl; apply _. Defined.

Fixpoint enabled_all (s : GameState) (evs : list Event) : Prop :=
  match evs with
  | [] => True
  | e :: evs' => enabled s e ∧ enabled_all (step s e) evs'
  end.

Global Instance enabled_all_dec s evs : Decision (enabled_all s evs).
Proof. revert s. induction evs; simpl; intros; apply _. Defined.

Inductive reachable : GameState → Prop :=
| reachable_init : reachable initialState
| reachable_step s e :
    reachable s → enabled s e → reachable (step s e).

Definition isCropClick (e : Event) : bool :=
  match e with CropClick _ => true | _ => false end.

(** ** Vocabulary of the statements *)

(** [gameState.crops.find(c => c.x === x && c.z === z)] *)
Definition cropAt (s : GameState) (x z : Z) : option CropData.t :=
  find (λ c, (CropData.x c =? x) && (CropData.z c =? z)) (crops s).

(** The [newCrop] object of the seed branch. *)
Definition plantedCrop (s : GameState) (x z now : Z) (rnd : CropType)
    : CropData.t :=
  {| CropData.id := cropId x z now; CropData.x := x; CropData.z := z;
     CropData.type := rnd; CropData.stage := 0;
     CropData.plantedDay := day s |}.

Definition bounds (s : GameState) : Prop :=
  0 ≤ gold s ∧ 0 ≤ energy s ≤ 100.

Definition position (c : CropData.t) : Z * Z :=
  (CropData.x c, CropData.z c).

Record farm_inv (s : GameState) : Prop := {
  inv_positions : NoDup (position <$> crops s);
  inv_tilled : ∀ c, c ∈ crops s →
    plotKey (CropData.x c) (CropData.z c) ∈ tiledPlots s;
  inv_ids : ∀ c, c ∈ crops s →
    ∃ now, CropData.id c = cropId (CropData.x c) (CropData.z c) now;
  inv_stage : ∀ c, c ∈ crops s → 0 ≤ CropData.stage c ≤ 3
}.

(** The function mapped over the crops by the water updater. *)
Definition watered (target : string) (c : CropData.t) : CropData.t :=
  if decide (CropData.id c = target)
  then CropData.with_stage c (Z.min (CropData.stage c + 1) 3)
  else c.

(** What a successful water action and a successful harvest leave
    behind, written in terms of the one crop acted upon. *)
Definition growOnly (c c' : CropData.t) : CropData.t :=
  if decide (c' = c)
  then CropData.with_stage c (Z.min (CropData.stage c + 1) 3)
  else c'.

Definition waterResult (s : GameState) (c : CropData.t) : GameState :=
  {| day := day s; season := season s; gold := gold s;
     energy := energy s - 3; selectedTool := selectedTool s;
     crops := growOnly c <$> crops s; tiledPlots := tiledPlots s |}.

Definition harvestResult (s : GameState) (c : CropData.t) : GameState :=
  {| day := day s; season := season s;
     gold := gold s + CROP_PRICES (CropData.type c);
     energy := energy s; selectedTool := selectedTool s;
     crops := filter (λ c', c' ≠ c) (crops s); tiledPlots := tiledPlots s |}.

(** The crops created along a run, each with the clock reading that went
    into its id. *)
Definition plantedBy (s : GameState) (e : Event) : list (Z * CropData.t) :=
  match e with
  | PlotClick x z now rnd =>
      match handlePlotClick s x z now rnd with
      | PlantCrop newCrop => [(now, newCrop)]
      | _ => []
      end
  | _ => []
  end.

Fixpoint plantLog (s : GameState) (evs : list Event)
    : list (Z * CropData.t) :=
  match evs with
  | [] => []
  | e :: evs' => plantedBy s e ++ plantLog (step s e) evs'
  end.

(** The ids handed out along a run, in order. *)
Definition assignedIds (s : GameState) (evs : list Event) : list string :=
  (λ p, CropData.id p.2) <$> plantLog s evs.

(** Decimal numerals. *)
Definition digit (a : ascii) : Prop :=
  (48 ≤ nat_of_ascii a ≤ 57)%nat.

Fixpoint digits (s : string) : Prop :=
  match s with
  | EmptyString => True
  | String a s' => digit a ∧ digits s'
  end.

(** ** Sample games *)

(** A state at the edge of both ranges: the one operation that could
    spend, a seed click on the tilled plot, is refused. *)
Definition brokeState : GameState :=
  {| day := 1; season := Some Spring; gold := 0; energy := 0;
     selectedTool := seed; crops := []; tiledPlots := {[ plotKey 0 0 ]} |}.

(** A short game: till (0,0), plant a tomato there, water it [n] times. *)
Definition tomatoTrace (n : nat) : list Event :=
  [PlotClick 0 0 0 corn; SelectTool seed; PlotClick 0 0 1000 tomato;
   SelectTool water] ++ replicate n (PlotClick 0 0 0 corn).

Definition tomatoCrop (stage : Z) : CropData.t :=
  {| CropData.id := "0-0-1000"; CropData.x := 0; CropData.z := 0;
     CropData.type := tomato; CropData.stage := stage;
     CropData.plantedDay := 1 |}.

(** A day's work that uses up all the energy: seventeen plots tilled,
    three of them planted in the same instant, one crop watered until it
    is ready, and the harvest tool picked up. *)
Definition exhaustingTrace : list Event :=
  ((λ p : Z * Z, PlotClick p.1 p.2 0 corn) <$>
     [(0,0); (0,1); (0,2); (0,3); (0,4); (0,5); (0,6);
      (1,0); (1,1); (1,2); (1,3); (1,4); (1,5); (1,6);
      (2,0); (2,1); (2,2)])
  ++ [SelectTool seed;
      PlotClick 0 0 1000 tomato; PlotClick 0 1 1000 carrot;
      PlotClick 0 2 1000 corn;
      SelectTool water;
      PlotClick 0 0 0 corn; PlotClick 0 0 0 corn; PlotClick 0 0 0 corn;
      SelectTool harvest].

(** Till (0,0), plant, water three times, harvest, plant again, while the
    clock reads 1000 all along. *)
Definition replantTrace : list Event :=
  [PlotClick 0 0 1000 tomato; SelectTool seed; PlotClick 0 0 1000 tomato;
   SelectTool water; PlotClick 0 0 1000 tomato; PlotClick 0 0 1000 tomato;
   PlotClick 0 0 1000 tomato; SelectTool harvest; CropClick (tomatoCrop 3);
   SelectTool seed; PlotClick 0 0 1000 carrot].

(** ** What the scene and the panels render

    The components are modelled up to their decisions: which element is
    drawn, with which key, flag, colour and click handler.  The meshes'
    coordinates and sizes are floating-point literals and are left out. *)

Definition CROP_COLORS (ty : CropType) : string :=
  match ty with
  | carrot => "#FF7F50"
  | tomato => "#FF6347"
  | corn => "#FFD700"
  | turnip => "#DDA0DD"
  end.

(** The produce mesh of a ready crop. *)
Inductive Produce := carrotCone | tomatoSphere | cornCob | turnipSphere.

(** The children of the group a [Crop] returns: one element per stage
    whose test [crop.stage === n] holds. *)
Inductive CropModel :=
| SeedModel
| SproutModel
| GrowingModel
| ReadyModel (produce : list (Produce * string)).

Definition cropProduce (crop : CropData.t) : list (Produce * string) :=
  let color := CROP_COLORS (CropData.type crop) in
  (if bool_decide (CropData.type crop = carrot)
   then [(carrotCone, color)] else [])
  ++ (if bool_decide (CropData.type crop = tomato)
      then [(tomatoSphere, color)] else [])
  ++ (if bool_decide (CropData.type crop = corn)
      then [(cornCob, color)] else [])
  ++ (if bool_decide (CropData.type crop = turnip)
      then [(turnipSphere, color)] else []).

Definition Crop (crop : CropData.t) : list CropModel :=
  (if CropData.stage crop =? 0 then [SeedModel] else [])
  ++ (if CropData.stage crop =? 1 then [SproutModel] else [])
  ++ (if CropData.stage crop =? 2 then [GrowingModel] else [])
  ++ (if CropData.stage crop =? 3
      then [ReadyModel (cropProduce crop)] else []).

(** The props [FarmScene] passes to a [FarmPlot]; its [onClick] is
    [() => handlePlotClick(x, z)]. *)
Record PlotProps := mkPlotProps {
  plot_key : string;
  plot_x : Z;
  plot_z : Z;
  isTilled : bool
}.

(** [key={`${x}-${z}`}] *)
Definition plotReactKey (x z : Z) : string :=
  pretty x +:+ "-" +:+ pretty z.

(** The element drawn for plot (x,z). *)
Definition plotAt (gameState : GameState) (x z : Z) : PlotProps :=
  {| plot_key := plotReactKey x z;
     plot_x := x;
     plot_z := z;
     isTilled := bool_decide (plotKey x z ∈ tiledPlots gameState) |}.

(** [Array.from({ length: 7 }, (_, x) =>
      Array.from({ length: 7 }, (_, z) => <FarmPlot ... />))] *)
Definition farmPlots (gameState : GameState) : list (list PlotProps) :=
  (λ x, (λ z, plotAt gameState x z) <$> seqZ 0 7) <$> seqZ 0 7.

(** The colour of a [FarmPlot], from its prop and its hover state, and
    the keys of the furrow meshes it draws. *)
Definition plotColor (isTilled hovered : bool) : string :=
  if isTilled
  then (if hovered then "#6B4423" else "#5D3A1A")
  else (if hovered then "#4A7C3F" else "#3D6B35").

Definition plotFurrows (isTilled : bool) : list nat :=
  if isTilled then [0; 1; 2]%nat else [].

(** The four [ToolButton]s of the tools panel, each with its [selected]
    prop; the [onClick] of a button picks its tool. *)
Definition toolButtons (gameState : GameState) : list (Tool * bool) :=
  [ (hoe, bool_decide (selectedTool gameState = hoe));
    (water, bool_decide (selectedTool gameState = water));
    (seed, bool_decide (selectedTool gameState = seed));
    (harvest, bool_decide (selectedTool gameState = harvest)) ].

(** The texts of the four [StatBadge]s.  A season prints as its name
    and [undefined] as nothing. *)
Definition seasonName (v : option Season) : string :=
  match v with
  | Some Spring => "Spring"
  | Some Summer => "Summer"
  | Some Fall => "Fall"
  | Some Winter => "Winter"
  | None => ""
  end.

Definition statBadges (gameState : GameState) : list string :=
  [ "Day " +:+ pretty (day gameState);
    seasonName (season gameState);
    pretty (energy gameState);
    pretty (gold gameState) +:+ "g" ].

(** ** The events the page offers

    Plot clicks come from the 7 x 7 grid of [farmPlots], crop clicks from
    the crops of the current render. *)
Definition offered (s : GameState) (e : Event) : Prop :=
  match e with
  | PlotClick x z _ _ => (0 ≤ x < 7) ∧ (0 ≤ z < 7)
  | CropClick crop => crop ∈ crops s
  | _ => True
  end.

Inductive uiReachable : GameState → Prop :=
| uiReachable_init : uiReachable initialState
| uiReachable_step s e :
    uiReachable s → offered s e → uiReachable (step s e).

(** The keys of the 49 plots of the grid. *)
Definition gridKeys : list string :=
  x ← seqZ 0 7; z ← seqZ 0 7; [plotKey x z].

(** Gold plus the seed money that stands in the field. *)
Definition wealth (s : GameState) : Z :=
  gold s + 20 * Z.of_nat (length (crops s)).

Definition isNextDay (e : Event) : bool :=
  match e with NextDay => true | _ => false end.

(** The state while the crop planted at (x,z) is at stage [k]. *)
Definition growing (s : GameState) (x z now : Z) (rnd : CropType)
    (k e : Z) (tool : Tool) : GameState :=
  {| day := day s; season := season s; gold := gold s - 20; energy := e;
     selectedTool := tool;
     crops := crops s ++ [CropData.with_stage (plantedCrop s x z now rnd) k];
     tiledPlots := tiledPlots s |}.

(** * Decimal numerals and the injectivity of the two templates *)

Lemma pretty_N_char_digit n : digit (pretty_N_char n).
Proof. unfold pretty_N_char, digit. repeat case_match; vm_compute; lia. Qed.

Lemma pretty_N_go_digits n s : digits s → digits (pretty_N_go n s).
Proof.
  revert s. induction (N.lt_wf_0 n) as [n _ IH]; intros s Hs.
  destruct (decide (n = 0)%N) as [->|Hn]; [done|].
  rewrite pretty_N_go_step by lia.
  apply IH; [apply N.div_lt; lia|].
  split; [apply pretty_N_char_digit|done].
Qed.

Lemma pretty_N_go_length n s :
  (String.length s ≤ String.length (pretty_N_go n s))%nat.
Proof.
  revert s. induction (N.lt_wf_0 n) as [n _ IH]; intros s.
  destruct (decide (n = 0)%N) as [->|Hn]; [done|].
  rewrite pretty_N_go_step by lia.
  etrans; [|apply IH, N.div_lt; lia]. simpl. lia.
Qed.

Lemma pretty_N_digits (n : N) : digits (pretty n) ∧ pretty n ≠ "".
Proof.
  unfold pretty, pretty_N. case_decide as Hn.
  - split; [|done]. split; [unfold digit; vm_compute; lia|done].
  - split; [by apply pretty_N_go_digits|].
    rewrite pretty_N_go_step by lia. intros Heq.
    pose proof (pretty_N_go_length (n `div` 10)
      (String (pretty_N_char (n `mod` 10)) "")) as Hlen.
    rewrite Heq in Hlen. simpl in Hlen. lia.
Qed.

(** A numeral followed by a separator that is not a digit can be read
    back: the separator is the first character that is not a digit. *)
Lemma digits_sep_inj sep d1 d2 r1 r2 :
  ¬ digit sep → digits d1 → digits d2 →
  d1 +:+ String sep r1 = d2 +:+ String sep r2 → d1 = d2 ∧ r1 = r2.
Proof.
  intros Hsep. revert d2.
  induction d1 as [|a d1 IH]; intros [|b d2]; simpl; intros H1 H2 Heq.
  - by simplify_eq.
  - simplify_eq. by destruct H2.
  - simplify_eq. by destruct H1.
  - injection Heq as -> Heq. destruct H1, H2.
    destruct (IH d2) as [-> ->]; done.
Qed.

Lemma pretty_Z_shape (n : Z) :
  (0 ≤ n ∧ digits (pretty n) ∧ pretty n ≠ "")
  ∨ (n < 0 ∧ ∃ d, pretty n = String "-" d ∧ digits d ∧ d ≠ ""
                  ∧ d = pretty (Z.abs_N n)).
Proof.
  destruct n as [|p|p].
  - left. split; [lia|]. apply (pretty_N_digits 0).
  - left. split; [lia|]. apply (pretty_N_digits (Npos p)).
  - right. split; [lia|]. exists (pretty (Npos p)).
    destruct (pretty_N_digits (Npos p)). done.
Qed.

Lemma pretty_Z_sep_inj sep (n m : Z) r1 r2 :
  ¬ digit sep →
  pretty n +:+ String sep r1 = pretty m +:+ String sep r2 →
  n = m ∧ r1 = r2.
Proof.
  intros Hsep Heq.
  assert (¬ digit "-") as Hdash by (unfold digit; vm_compute; lia).
  destruct (pretty_Z_shape n) as [(Hn & Hdn & Hen)|(Hn & dn & Hpn & Hdn & Hen & Han)],
           (pretty_Z_shape m) as [(Hm & Hdm & Hem)|(Hm & dm & Hpm & Hdm & Hem & Ham)].
  - destruct (digits_sep_inj sep _ _ r1 r2 Hsep Hdn Hdm Heq) as [Hp ->].
    split; [|done]. by apply (inj pretty).
  - rewrite Hpm in Heq. destruct (pretty n) as [|a d]; [done|].
    simpl in Heq. injection Heq as -> _. by destruct Hdn.
  - rewrite Hpn in Heq. destruct (pretty m) as [|a d]; [done|].
    simpl in Heq. injection Heq as <- _. by destruct Hdm.
  - rewrite Hpn, Hpm in Heq. simpl in Heq. injection Heq as Heq.
    destruct (digits_sep_inj sep _ _ r1 r2 Hsep Hdn Hdm Heq) as [Hp ->].
    split; [|done]. subst dn dm. apply (inj pretty) in Hp. lia.
Qed.

Lemma plotKey_inj x z x' z' :
  plotKey x z = plotKey x' z' → x = x' ∧ z = z'.
Proof.
  unfold plotKey. intros Heq.
  apply (pretty_Z_sep_inj ",") in Heq as [-> Hz];
    [|unfold digit; vm_compute; lia].
  split; [done|]. by apply (inj pretty).
Qed.

Lemma cropId_inj x z now x' z' now' :
  cropId x z now = cropId x' z' now' → x = x' ∧ z = z' ∧ now = now'.
Proof.
  assert (¬ digit "-") as Hdash by (unfold digit; vm_compute; lia).
  unfold cropId. intros Heq.
  apply (pretty_Z_sep_inj "-") in Heq as [-> Heq]; [|done].
  apply (pretty_Z_sep_inj "-") in Heq as [-> Heq]; [|done].
  split_and!; [done..|]. by apply (inj pretty).
Qed.

(** * What each handler decides, tool by tool *)

Lemma geb_spec (n m : Z) : (n >=? m) = bool_decide (m ≤ n).
Proof.
  destruct (n >=? m) eqn:E; symmetry.
  - apply bool_decide_eq_true. by apply Z.geb_le.
  - apply bool_decide_eq_false. intros H. apply Z.geb_le in H. congruence.
Qed.

Lemma ltb_spec (n m : Z) : (n <? m) = bool_decide (n < m).
Proof.
  destruct (n <? m) eqn:E; symmetry.
  - apply bool_decide_eq_true. by apply Z.ltb_lt.
  - apply bool_decide_eq_false. by apply Z.ltb_ge in E; lia.
Qed.

Lemma eqb_spec (n m : Z) : (n =? m) = bool_decide (n = m).
Proof.
  destruct (n =? m) eqn:E; symmetry.
  - apply bool_decide_eq_true. by apply Z.eqb_eq.
  - apply bool_decide_eq_false. by apply Z.eqb_neq.
Qed.

Ltac bool_cases :=
  rewrite ?geb_spec, ?ltb_spec, ?eqb_spec;
  repeat case_bool_decide; repeat case_decide; simpl;
  try done; try lia; try tauto; try (exfalso; intuition lia).

Lemma handlePlotClick_hoe s x z now rnd :
  selectedTool s = hoe →
  handlePlotClick s x z now rnd =
    if decide ((plotKey x z ∉ tiledPlots s) ∧ 5 ≤ energy s)
    then TillPlot (plotKey x z) else NoUpdate.
Proof.
  intros Ht. unfold handlePlotClick. rewrite Ht.
  destruct (find _ _); bool_cases.
Qed.

Lemma handlePlotClick_seed s x z now rnd :
  selectedTool s = seed →
  handlePlotClick s x z now rnd =
    if decide (plotKey x z ∈ tiledPlots s ∧ cropAt s x z = None
               ∧ 20 ≤ gold s ∧ 2 ≤ energy s)
    then PlantCrop (plantedCrop s x z now rnd) else NoUpdate.
Proof.
  intros Ht. unfold handlePlotClick, cropAt, plantedCrop. rewrite Ht.
  destruct (find _ _) as [c|] eqn:Hf; bool_cases.
  all: exfalso;
    repeat match goal with
    | H : is_Some None |- _ => by destruct H
    | H : ¬ is_Some (Some _) |- _ => by destruct H; eexists
    | H : ¬ (_ ∧ _) |- _ => apply H; split_and!; try done; try lia
    | H : _ ∧ _ |- _ => destruct H
    end; congruence.
Qed.

Lemma handlePlotClick_water s x z now rnd :
  selectedTool s = water →
  handlePlotClick s x z now rnd =
    match cropAt s x z with
    | Some c =>
        if decide (CropData.stage c < 3 ∧ 3 ≤ energy s)
        then WaterCrop (CropData.id c) else NoUpdate
    | None => NoUpdate
    end.
Proof.
  intros Ht. unfold handlePlotClick, cropAt. rewrite Ht.
  destruct (find _ _) as [c|] eqn:Hf; bool_cases.
Qed.

Lemma handlePlotClick_harvest s x z now rnd :
  selectedTool s = harvest → handlePlotClick s x z now rnd = NoUpdate.
Proof.
  intros Ht. unfold handlePlotClick. rewrite Ht.
  destruct (find _ _) as [c|] eqn:Hf; bool_cases.
Qed.

Lemma handleCropClick_harvest s crop :
  selectedTool s = harvest →
  handleCropClick s crop =
    if decide (CropData.stage crop = 3)
    then HarvestCrop (CropData.id crop) (CROP_PRICES (CropData.type crop))
    else NoUpdate.
Proof. intros Ht. unfold handleCropClick. rewrite Ht. bool_cases. Qed.

Lemma handleCropClick_water s crop :
  selectedTool s = water →
  handleCropClick s crop =
    if decide (CropData.stage crop < 3 ∧ 3 ≤ energy s)
    then WaterCrop (CropData.id crop) else NoUpdate.
Proof. intros Ht. unfold handleCropClick. rewrite Ht. bool_cases. Qed.

Lemma handleCropClick_other s crop :
  selectedTool s = hoe ∨ selectedTool s = seed →
  handleCropClick s crop = NoUpdate.
Proof. intros [Ht|Ht]; unfold handleCropClick; rewrite Ht; bool_cases. Qed.

Lemma handlePlotClick_cases s x z now rnd :
  handlePlotClick s x z now rnd = NoUpdate
  ∨ (handlePlotClick s x z now rnd = TillPlot (plotKey x z)
     ∧ selectedTool s = hoe ∧ (plotKey x z ∉ tiledPlots s) ∧ 5 ≤ energy s)
  ∨ (handlePlotClick s x z now rnd = PlantCrop (plantedCrop s x z now rnd)
     ∧ selectedTool s = seed ∧ plotKey x z ∈ tiledPlots s
     ∧ cropAt s x z = None ∧ 20 ≤ gold s ∧ 2 ≤ energy s)
  ∨ (∃ c, handlePlotClick s x z now rnd = WaterCrop (CropData.id c)
     ∧ selectedTool s = water ∧ cropAt s x z = Some c
     ∧ CropData.stage c < 3 ∧ 3 ≤ energy s).
Proof.
  destruct (selectedTool s) eqn:Ht.
  - rewrite handlePlotClick_hoe by done. case_decide; [|by left].
    right; left. tauto.
  - rewrite handlePlotClick_water by done.
    destruct (cropAt s x z) as [c|] eqn:Hc; [|by left].
    case_decide; [|by left]. do 3 right. exists c. tauto.
  - rewrite handlePlotClick_seed by done. case_decide; [|by left].
    right; right; left. tauto.
  - left. by apply handlePlotClick_harvest.
Qed.

Lemma handleCropClick_cases s crop :
  handleCropClick s crop = NoUpdate
  ∨ (handleCropClick s crop =
       HarvestCrop (CropData.id crop) (CROP_PRICES (CropData.type crop))
     ∧ selectedTool s = harvest ∧ CropData.stage crop = 3)
  ∨ (handleCropClick s crop = WaterCrop (CropData.id crop)
     ∧ selectedTool s = water ∧ CropData.stage crop < 3 ∧ 3 ≤ energy s).
Proof.
  destruct (selectedTool s) eqn:Ht.
  - left. apply handleCropClick_other. by left.
  - rewrite handleCropClick_water by done. case_decide; [|by left].
    right; right. tauto.
  - left. apply handleCropClick_other. by right.
  - rewrite handleCropClick_harvest by done. case_decide; [|by left].
    right; left. tauto.
Qed.

(** * Runs and reachable states *)

Lemma reachable_run s evs :
  reachable s → enabled_all s evs → reachable (run s evs).
Proof.
  revert s. induction evs as [|e evs IH]; simpl; intros s Hs Hen; [done|].
  destruct Hen as [He Hen]. apply IH; [|done]. by constructor.
Qed.

Lemma reachable_inv (P : GameState → Prop) :
  P initialState →
  (∀ s e, P s → enabled s e → P (step s e)) →
  ∀ s, reachable s → P s.
Proof. intros H0 Hstep s Hs. induction Hs; eauto. Qed.

Lemma enabled_all_plain s evs :
  Forall (λ e, isCropClick e = false) evs → enabled_all s evs.
Proof.
  intros Hall. revert s.
  induction Hall as [|e evs He _ IH]; simpl; intros s; [done|].
  split; [by destruct e|apply IH].
Qed.

Lemma tomatoTrace_reachable n : reachable (run initialState (tomatoTrace n)).
Proof.
  apply reachable_run; [constructor|]. apply enabled_all_plain.
  unfold tomatoTrace. apply Forall_app. split.
  - by repeat constructor.
  - by apply Forall_replicate.
Qed.

Lemma exhaustingTrace_reachable : reachable (run initialState exhaustingTrace).
Proof.
  apply reachable_run; [constructor|]. apply enabled_all_plain.
  by repeat constructor.
Qed.

(** * Resource accounting *)

Lemma CROP_PRICES_pos ty : 0 < CROP_PRICES ty.
Proof. by destruct ty. Qed.

Lemma step_bounds s e : bounds s → bounds (step s e).
Proof.
  unfold bounds. intros Hb. destruct e as [tool|x z now rnd|crop|]; simpl.
  - done.
  - unfold interactPlot.
    destruct (handlePlotClick_cases s x z now rnd)
      as [->|[(-> & ?)|[(-> & ?)|(c & -> & ?)]]]; simpl; lia.
  - unfold interactCrop.
    pose proof (CROP_PRICES_pos (CropData.type crop)).
    destruct (handleCropClick_cases s crop)
      as [->|[(-> & ?)|(-> & ?)]]; simpl; lia.
  - lia.
Qed.

Lemma run_bounds s evs : bounds s → bounds (run s evs).
Proof.
  revert s. induction evs as [|e evs IH]; simpl; intros s Hb; [done|].
  by apply IH, step_bounds.
Qed.

(** C1.  Whatever sequence of tool selections, plot clicks, crop clicks
    and day advances is applied to the initial state (gold 500, energy
    100), the state after each of them has [gold ≥ 0] and
    [0 ≤ energy ≤ 100]; and no single operation takes a non-negative gold
    or a non-negative energy below zero. *)
Theorem C1_gold_energy_in_range :
  (∀ (evs : list Event) (k : nat),
     let s := run initialState (take k evs) in
     0 ≤ gold s ∧ 0 ≤ energy s ≤ 100)
  ∧ (∀ s e, 0 ≤ gold s → 0 ≤ gold (step s e))
  ∧ (∀ s e, 0 ≤ energy s → 0 ≤ energy (step s e)).
Proof.
  split_and!.
  - intros evs k. apply run_bounds. unfold bounds. simpl. lia.
  - intros s e Hg. destruct e as [tool|x z now rnd|crop|]; simpl; [done| | |done].
    + unfold interactPlot.
      destruct (handlePlotClick_cases s x z now rnd)
        as [->|[(-> & ?)|[(-> & ?)|(c & -> & ?)]]]; simpl; lia.
    + unfold interactCrop.
      pose proof (CROP_PRICES_pos (CropData.type crop)).
      destruct (handleCropClick_cases s crop)
        as [->|[(-> & ?)|(-> & ?)]]; simpl; lia.
  - intros s e Hg. destruct e as [tool|x z now rnd|crop|]; simpl; [done| | |lia].
    + unfold interactPlot.
      destruct (handlePlotClick_cases s x z now rnd)
        as [->|[(-> & ?)|[(-> & ?)|(c & -> & ?)]]]; simpl; lia.
    + unfold interactCrop.
      destruct (handleCropClick_cases s crop)
        as [->|[(-> & ?)|(-> & ?)]]; simpl; lia.
Qed.

Lemma C1_gold_energy_in_range_witness :
  0 ≤ gold (step brokeState (PlotClick 0 0 0 corn))
  ∧ 0 ≤ energy (step brokeState (PlotClick 0 0 0 corn)).
Proof.
  destruct C1_gold_energy_in_range as (_ & Hg & He).
  split; [apply Hg|apply He]; simpl; lia.
Defined.

(** * Day and season *)

Lemma sleep_day n s : day (sleep n s) = day s + Z.of_nat n.
Proof.
  induction n as [|n IH]; simpl; [lia|].
  rewrite IH. lia.
Qed.

Lemma sleep_season n s :
  season (sleep (S n) s) =
    js_index seasons (Z.rem ((day s + Z.of_nat n) `div` 28) 4).
Proof.
  simpl. rewrite sleep_day. do 3 f_equal. lia.
Qed.

Lemma season_index_range d :
  0 ≤ d → 0 ≤ Z.rem (d `div` 28) 4 < 4 ∧ Z.rem (d `div` 28) 4 = (d `div` 28) `mod` 4.
Proof.
  intros Hd. assert (0 ≤ d `div` 28) by (apply Z.div_pos; lia).
  rewrite Z.rem_mod_nonneg by lia.
  split; [|done]. apply Z.mod_pos_bound. lia.
Qed.

Lemma js_index_seasons i :
  0 ≤ i < 4 → js_index seasons i = seasons !! Z.to_nat i ∧ is_Some (js_index seasons i).
Proof.
  intros Hi. unfold js_index. destruct (i <? 0) eqn:E; [apply Z.ltb_lt in E; lia|].
  split; [done|].
  assert (i = 0 ∨ i = 1 ∨ i = 2 ∨ i = 3) as [-> | [-> | [-> | ->]]] by lia;
    by eexists.
Qed.

Lemma sleep_initial_season (n : nat) :
  season (sleep n initialState) = seasons !! ((n / 28) `mod` 4)%nat.
Proof.
  destruct n as [|n]; [done|].
  rewrite sleep_season. change (day initialState) with 1.
  replace (1 + Z.of_nat n) with (Z.of_nat (S n)) by lia.
  destruct (season_index_range (Z.of_nat (S n))) as [Hr ->]; [lia|].
  replace ((Z.of_nat (S n) `div` 28) `mod` 4)
    with (Z.of_nat ((S n / 28) `mod` 4))
    by (by rewrite Nat2Z.inj_mod, Nat2Z.inj_div).
  destruct (js_index_seasons (Z.of_nat ((S n / 28) `mod` 4))) as [-> _].
  - pose proof (Nat.mod_upper_bound (S n / 28) 4). lia.
  - by rewrite Nat2Z.id.
Qed.

Lemma advanceDay_season s :
  0 ≤ day s →
  season (advanceDay s)
  = seasons !! Z.to_nat (((day (advanceDay s) - 1) `div` 28) `mod` 4)
  ∧ is_Some (season (advanceDay s)).
Proof.
  intros Hd. simpl.
  replace (day s + 1 - 1) with (day s) by lia.
  destruct (season_index_range (day s)) as [Hr Hm]; [lia|].
  destruct (js_index_seasons _ Hr) as [Hi Hs].
  rewrite Hi in Hs. rewrite Hi, Hm. by rewrite Hm in Hs.
Qed.

(** Only the sleep button moves the clock. *)
Lemma step_clock s e :
  e ≠ NextDay → day (step s e) = day s ∧ season (step s e) = season s.
Proof.
  intros He. destruct e as [tool|x z now rnd|crop|]; simpl; [done| | |done].
  - unfold interactPlot.
    by destruct (handlePlotClick_cases s x z now rnd)
      as [->|[(-> & ?)|[(-> & ?)|(c & -> & ?)]]].
  - unfold interactCrop.
    by destruct (handleCropClick_cases s crop) as [->|[(-> & ?)|(-> & ?)]].
Qed.

Lemma reachable_clock s :
  reachable s →
  1 ≤ day s
  ∧ season s = seasons !! Z.to_nat (((day s - 1) `div` 28) `mod` 4).
Proof.
  revert s. apply reachable_inv; [by split|].
  intros s e [Hd Hs] _.
  assert (e = NextDay ∨ e ≠ NextDay) as [->|He]
    by (destruct e; (by left) || (by right)).
  - simpl. split; [lia|].
    destruct (advanceDay_season s) as [Heq _]; [lia|]. exact Heq.
  - destruct (step_clock s e He) as [-> ->]. done.
Qed.

(** C2.  [advanceDay] is total and adds exactly 1 to the day, recomputes
    the season as [seasons[floor((day-1)/28) mod 4]] from the new day,
    sets energy to 100 and keeps gold, crops and tilled plots.  From day 1
    the season is Spring up to day 28 and Summer at day 29, and the
    seasons repeat in the order Spring, Summer, Fall, Winter with period
    112 days.  No other operation moves the clock, so in every reachable
    state the season is the one of the day. *)
Theorem C2_advanceDay :
  (∀ s, let s' := advanceDay s in
     day s' = day s + 1
     ∧ season s' = js_index seasons (Z.rem ((day s' - 1) `div` 28) 4)
     ∧ energy s' = 100
     ∧ gold s' = gold s ∧ crops s' = crops s
     ∧ tiledPlots s' = tiledPlots s ∧ selectedTool s' = selectedTool s)
  ∧ (∀ s, 1 ≤ day s →
       let s' := advanceDay s in
       season s' = seasons !! Z.to_nat (((day s' - 1) `div` 28) `mod` 4)
       ∧ is_Some (season s'))
  ∧ (∀ n : nat, day (sleep n initialState) = 1 + Z.of_nat n)
  ∧ (∀ n : nat,
       season (sleep n initialState) = seasons !! ((n / 28) `mod` 4)%nat)
  ∧ (∀ n : nat, (n < 28)%nat → season (sleep n initialState) = Some Spring)
  ∧ season (sleep 28 initialState) = Some Summer
  ∧ season (sleep 56 initialState) = Some Fall
  ∧ season (sleep 84 initialState) = Some Winter
  ∧ season (sleep 112 initialState) = Some Spring
  ∧ (∀ n : nat,
       season (sleep (n + 112) initialState) = season (sleep n initialState))
  ∧ (∀ s, reachable s →
       1 ≤ day s
       ∧ season s = seasons !! Z.to_nat (((day s - 1) `div` 28) `mod` 4)).
Proof.
  split_and!.
  - intros s. simpl. split_and!; done.
  - intros s Hd. apply advanceDay_season. lia.
  - intros n. by rewrite sleep_day.
  - apply sleep_initial_season.
  - intros n Hn. rewrite sleep_initial_season.
    by rewrite Nat.div_small.
  - by rewrite sleep_initial_season.
  - by rewrite sleep_initial_season.
  - by rewrite sleep_initial_season.
  - by rewrite sleep_initial_season.
  - intros n. rewrite !sleep_initial_season. f_equal.
    change 112%nat with (4 * 28)%nat.
    rewrite Nat.div_add by lia.
    replace (n / 28 + 4)%nat with (n / 28 + 1 * 4)%nat by lia.
    by rewrite Nat.Div0.mod_add.
  - apply reachable_clock.
Qed.

Lemma C2_advanceDay_witness :
  season (advanceDay (sleep 27 initialState)) = Some Summer.
Proof.
  destruct C2_advanceDay as (_ & Hs & _).
  destruct (Hs (sleep 27 initialState)) as [-> _]; [vm_compute; congruence|].
  reflexivity.
Defined.

(** * The crop collection of a reachable state *)

Lemma NoDup_fmap_elem_inj {A B} (f : A → B) (l : list A) a b :
  NoDup (f <$> l) → a ∈ l → b ∈ l → f a = f b → a = b.
Proof.
  induction l as [|c l IH]; simpl; intros Hnd Ha Hb Heq.
  - by apply elem_of_nil in Ha.
  - apply NoDup_cons in Hnd as [Hc Hnd].
    apply elem_of_cons in Ha as [->|Ha], Hb as [->|Hb]; [done|..|by apply IH].
    + destruct Hc. rewrite Heq. by apply list_elem_of_fmap_2.
    + destruct Hc. rewrite <-Heq. by apply list_elem_of_fmap_2.
Qed.

Lemma NoDup_fmap_filter {A B} (f : A → B) (P : A → Prop)
    `{∀ a, Decision (P a)} (l : list A) :
  NoDup (f <$> l) → NoDup (f <$> filter P l).
Proof.
  induction l as [|c l IH]; simpl; intros Hnd; [done|].
  apply NoDup_cons in Hnd as [Hc Hnd].
  rewrite filter_cons. case_decide; [|by apply IH].
  rewrite fmap_cons. apply NoDup_cons. split; [|by apply IH].
  intros (c' & Heq & Hin)%list_elem_of_fmap.
  apply list_elem_of_filter in Hin as [_ Hin].
  apply Hc. rewrite Heq. by apply list_elem_of_fmap_2.
Qed.

Lemma filter_ext_elem {A} (P Q : A → Prop)
    `{∀ a, Decision (P a)} `{∀ a, Decision (Q a)} (l : list A) :
  (∀ a, a ∈ l → P a ↔ Q a) → filter P l = filter Q l.
Proof.
  induction l as [|a l IH]; intros Hext; [done|].
  rewrite !filter_cons.
  rewrite IH by (intros b Hb; apply Hext; by right).
  destruct (Hext a) as [H1 H2]; [by left|].
  repeat case_decide; tauto.
Qed.

Lemma cropAt_None s x z c :
  cropAt s x z = None → c ∈ crops s → position c ≠ (x, z).
Proof.
  unfold cropAt, position. intros Hf Hc [= Hx Hz].
  apply list_elem_of_In in Hc.
  apply (find_none _ _ Hf) in Hc. simpl in Hc.
  rewrite Hx, Hz, !Z.eqb_refl in Hc. done.
Qed.

Lemma cropAt_Some s x z c :
  cropAt s x z = Some c → c ∈ crops s ∧ position c = (x, z).
Proof.
  unfold cropAt, position. intros Hf. apply find_some in Hf as [Hin Hp].
  apply list_elem_of_In in Hin.
  apply andb_true_iff in Hp as [Hx%Z.eqb_eq Hz%Z.eqb_eq].
  split; [done|]. by rewrite Hx, Hz.
Qed.

Lemma cropAt_None_iff s x z :
  cropAt s x z = None
  ↔ ¬ ∃ c, c ∈ crops s ∧ CropData.x c = x ∧ CropData.z c = z.
Proof.
  split.
  - intros Hf (c & Hc & Hx & Hz).
    apply (cropAt_None s x z c Hf Hc). unfold position. by rewrite Hx, Hz.
  - intros Hno. destruct (cropAt s x z) as [c|] eqn:Hf; [|done].
    apply cropAt_Some in Hf as [Hc [= Hx Hz]]. destruct Hno. by exists c.
Qed.

(** With one crop per coordinate, the plot lookup finds the very crop
    that stands there. *)
Lemma cropAt_elem s c :
  NoDup (position <$> crops s) → c ∈ crops s →
  cropAt s (CropData.x c) (CropData.z c) = Some c.
Proof.
  intros Hnd Hc.
  destruct (cropAt s (CropData.x c) (CropData.z c)) as [c'|] eqn:Hf.
  - apply cropAt_Some in Hf as [Hc' Hp]. f_equal.
    by apply (NoDup_fmap_elem_inj position (crops s)).
  - by destruct (cropAt_None _ _ _ c Hf Hc).
Qed.

Lemma farm_inv_ids s : farm_inv s → NoDup (CropData.id <$> crops s).
Proof.
  intros [Hpos _ Hids _].
  apply NoDup_fmap_2_strong; [|by apply NoDup_fmap_1 in Hpos].
  intros a b Ha Hb Heq.
  destruct (Hids a Ha) as [ta Hta], (Hids b Hb) as [tb Htb].
  rewrite Hta, Htb in Heq. apply cropId_inj in Heq as (Hx & Hz & _).
  apply (NoDup_fmap_elem_inj position (crops s)); [done..|].
  unfold position. by rewrite Hx, Hz.
Qed.

Lemma farm_inv_id_inj s a b :
  farm_inv s → a ∈ crops s → b ∈ crops s →
  CropData.id a = CropData.id b → a = b.
Proof.
  intros Hinv. apply NoDup_fmap_elem_inj. by apply farm_inv_ids.
Qed.

Lemma crops_water target s :
  crops (applyUpdate (WaterCrop target) s) = watered target <$> crops s.
Proof. done. Qed.

Lemma watered_position target c : position (watered target c) = position c.
Proof. unfold watered. by case_decide. Qed.

Lemma watered_id target c : CropData.id (watered target c) = CropData.id c.
Proof. unfold watered. by case_decide. Qed.

Lemma till_inv s key : farm_inv s → farm_inv (applyUpdate (TillPlot key) s).
Proof.
  intros [Hpos Htil Hids Hst]. split; simpl; [done| |done..].
  intros c Hc. apply elem_of_union_l. by apply Htil.
Qed.

Lemma plant_inv s x z now rnd :
  farm_inv s → plotKey x z ∈ tiledPlots s → cropAt s x z = None →
  farm_inv (applyUpdate (PlantCrop (plantedCrop s x z now rnd)) s).
Proof.
  intros [Hpos Htil Hids Hst] Hkey Hnone. split; simpl.
  - rewrite fmap_app. apply NoDup_app. split_and!; [done| |].
    + intros p (c & -> & Hc)%list_elem_of_fmap Hp.
      apply list_elem_of_singleton in Hp.
      by apply (cropAt_None s x z c).
    + apply NoDup_singleton.
  - intros c [Hc| ->%list_elem_of_singleton]%elem_of_app; [by apply Htil|done].
  - intros c [Hc| ->%list_elem_of_singleton]%elem_of_app; [by apply Hids|].
    by exists now.
  - intros c [Hc| ->%list_elem_of_singleton]%elem_of_app; [by apply Hst|].
    simpl. lia.
Qed.

Lemma water_inv s target :
  farm_inv s → farm_inv (applyUpdate (WaterCrop target) s).
Proof.
  intros [Hpos Htil Hids Hst]. split; rewrite ?crops_water.
  - rewrite <-list_fmap_compose.
    erewrite list_fmap_ext; [exact Hpos|].
    intros i c _. simpl. apply watered_position.
  - intros c' (c & -> & Hc)%list_elem_of_fmap. simpl.
    pose proof (watered_position target c) as [= -> ->]. by apply Htil.
  - intros c' (c & -> & Hc)%list_elem_of_fmap.
    pose proof (watered_position target c) as [= -> ->].
    rewrite watered_id. by apply Hids.
  - intros c' (c & -> & Hc)%list_elem_of_fmap.
    specialize (Hst c Hc). unfold watered. case_decide; simpl; lia.
Qed.

Lemma harvest_inv s target earned :
  farm_inv s → farm_inv (applyUpdate (HarvestCrop target earned) s).
Proof.
  intros [Hpos Htil Hids Hst]. split; simpl.
  - by apply NoDup_fmap_filter.
  - intros c [_ Hc]%list_elem_of_filter. by apply Htil.
  - intros c [_ Hc]%list_elem_of_filter. by apply Hids.
  - intros c [_ Hc]%list_elem_of_filter. by apply Hst.
Qed.

Lemma initial_inv : farm_inv initialState.
Proof.
  split; simpl; [apply NoDup_nil_2|..]; intros c Hc;
    by apply elem_of_nil in Hc.
Qed.

Lemma step_inv s e : farm_inv s → farm_inv (step s e).
Proof.
  intros Hinv. destruct e as [tool|x z now rnd|crop|]; simpl.
  - by destruct Hinv.
  - unfold interactPlot.
    destruct (handlePlotClick_cases s x z now rnd)
      as [->|[(-> & ?)|[(-> & ? & ? & ? & ?)|(c & -> & ?)]]].
    + done.
    + by apply till_inv.
    + by apply plant_inv.
    + by apply water_inv.
  - unfold interactCrop.
    destruct (handleCropClick_cases s crop) as [->|[(-> & ?)|(-> & ?)]].
    + done.
    + by apply harvest_inv.
    + by apply water_inv.
  - by destruct Hinv.
Qed.

Lemma reachable_farm_inv s : reachable s → farm_inv s.
Proof.
  apply reachable_inv; [apply initial_inv|]. intros ? ? ? _. by apply step_inv.
Qed.

(** * Plot clicks: tilling and planting *)

(** C3.  With the hoe selected, a plot click changes the state exactly
    when the plot is not tilled yet and energy is at least 5; it then adds
    the key of (x,z), and no other plot, to the tilled set and takes 5
    energy, leaving the rest of the state as it was.  Clicking the same
    plot once more changes nothing. *)
Theorem C3_till (s : GameState) (x z now : Z) (rnd : CropType) :
  selectedTool s = hoe →
  let s' := interactPlot s x z now rnd in
  let ok := (plotKey x z ∉ tiledPlots s) ∧ 5 ≤ energy s in
  (s' ≠ s ↔ ok)
  ∧ (ok →
       s' = {| day := day s; season := season s; gold := gold s;
               energy := energy s - 5; selectedTool := selectedTool s;
               crops := crops s;
               tiledPlots := tiledPlots s ∪ {[ plotKey x z ]} |}
       ∧ ∀ x' z', plotKey x' z' ∈ tiledPlots s'
                  ↔ plotKey x' z' ∈ tiledPlots s ∨ (x' = x ∧ z' = z))
  ∧ (¬ ok → s' = s)
  ∧ (∀ now' rnd', interactPlot s' x z now' rnd' = s').
Proof.
  intros Ht s' ok.
  assert (s' = applyUpdate
            (if decide ok then TillPlot (plotKey x z) else NoUpdate) s) as Hs'.
  { unfold s', interactPlot. by rewrite handlePlotClick_hoe. }
  clearbody s'. subst ok.
  destruct (decide _) as [Hok|Hno]; simpl in Hs'; subst s'.
  - split_and!.
    + split; [done|]. intros _ Heq. apply (f_equal energy) in Heq.
      simpl in Heq. lia.
    + intros _. split; [done|]. intros x' z'. simpl.
      rewrite elem_of_union, elem_of_singleton. split.
      * intros [?|Hk%plotKey_inj]; [by left|by right].
      * intros [?|[-> ->]]; [by left|by right].
    + done.
    + intros now' rnd'. unfold interactPlot.
      rewrite handlePlotClick_hoe by (simpl; exact Ht).
      simpl. case_decide as Hc; [|done]. destruct Hc as [Hc _].
      destruct Hc. apply elem_of_union_r. by apply elem_of_singleton.
  - split_and!; [split; [congruence|done]|done|done|].
    intros now' rnd'. unfold interactPlot. rewrite handlePlotClick_hoe by done.
    by case_decide.
Qed.

Lemma C3_till_witness :
  energy (interactPlot initialState 2 3 0 carrot) = 95
  ∧ interactPlot (interactPlot initialState 2 3 0 carrot) 2 3 1 corn
    = interactPlot initialState 2 3 0 carrot.
Proof.
  destruct (C3_till initialState 2 3 0 carrot eq_refl) as (_ & Hok & _ & Hidem).
  split; [|apply Hidem].
  destruct Hok as [-> _]; [|reflexivity].
  split; [|simpl; lia]. vm_compute. discriminate.
Defined.

(** C4.  With the seed tool selected, a plot click changes the state
    exactly when the plot is tilled, no crop stands at (x,z), gold is at
    least 20 and energy at least 2; it then appends one crop at (x,z) with
    stage 0 and [plantedDay] the current day, and takes 20 gold and 2
    energy.  From the initial state, tilling (0,0) leaves energy 95 and
    planting there next leaves gold 480, energy 93 and a single crop, at
    stage 0. *)
Theorem C4_seed (s : GameState) (x z now : Z) (rnd : CropType) :
  selectedTool s = seed →
  let s' := interactPlot s x z now rnd in
  let ok := plotKey x z ∈ tiledPlots s
            ∧ (¬ ∃ c, c ∈ crops s ∧ CropData.x c = x ∧ CropData.z c = z)
            ∧ 20 ≤ gold s ∧ 2 ≤ energy s in
  (s' ≠ s ↔ ok)
  ∧ (ok →
       s' = {| day := day s; season := season s; gold := gold s - 20;
               energy := energy s - 2; selectedTool := selectedTool s;
               crops := crops s ++
                 [ {| CropData.id := cropId x z now;
                      CropData.x := x; CropData.z := z;
                      CropData.type := rnd; CropData.stage := 0;
                      CropData.plantedDay := day s |} ];
               tiledPlots := tiledPlots s |})
  ∧ (¬ ok → s' = s)
  ∧ (∀ now1 rnd1 now2 rnd2,
       let s1 := interactPlot initialState 0 0 now1 rnd1 in
       let s2 := interactPlot (selectTool s1 seed) 0 0 now2 rnd2 in
       energy s1 = 95 ∧ gold s2 = 480 ∧ energy s2 = 93
       ∧ crops s2 = [ {| CropData.id := cropId 0 0 now2;
                         CropData.x := 0; CropData.z := 0;
                         CropData.type := rnd2; CropData.stage := 0;
                         CropData.plantedDay := 1 |} ]).
Proof.
  intros Ht s' ok.
  assert (ok ↔ plotKey x z ∈ tiledPlots s ∧ cropAt s x z = None
               ∧ 20 ≤ gold s ∧ 2 ≤ energy s) as Hok.
  { unfold ok. by rewrite cropAt_None_iff. }
  assert (s' = applyUpdate
            (if decide (plotKey x z ∈ tiledPlots s ∧ cropAt s x z = None
                        ∧ 20 ≤ gold s ∧ 2 ≤ energy s)
             then PlantCrop (plantedCrop s x z now rnd) else NoUpdate) s)
    as Hs'.
  { unfold s', interactPlot. by rewrite handlePlotClick_seed. }
  clearbody s' ok.
  split_and!.
  - rewrite Hok. case_decide; subst s'; simpl; split; try done.
    intros _ Heq. apply (f_equal energy) in Heq. simpl in Heq. lia.
  - intros H%Hok. by rewrite decide_True in Hs'.
  - intros H. rewrite Hok in H. by rewrite decide_False in Hs'.
  - intros now1 rnd1 now2 rnd2.
    assert (interactPlot initialState 0 0 now1 rnd1 =
            applyUpdate (TillPlot (plotKey 0 0)) initialState) as ->.
    { unfold interactPlot. rewrite handlePlotClick_hoe by done.
      rewrite decide_True; [done|]. split; [|simpl; lia].
      apply not_elem_of_empty. }
    simpl. unfold interactPlot. rewrite handlePlotClick_seed by done.
    rewrite decide_True; [done|]. simpl. split_and!; try done.
Qed.

Lemma C4_seed_witness :
  gold (interactPlot
          (selectTool (interactPlot initialState 0 0 7 corn) seed)
          0 0 8 tomato) = 480.
Proof.
  pose (s0 := selectTool (interactPlot initialState 0 0 7 corn) seed).
  pose proof (C4_seed s0 0 0 8 tomato eq_refl) as H.
  cbv zeta in H. destruct H as (_ & Hok & _).
  change (gold (interactPlot s0 0 0 8 tomato) = 480).
  rewrite Hok.
  - reflexivity.
  - split_and!.
    + vm_compute. reflexivity.
    + intros (c & Hc & _). vm_compute in Hc. by apply elem_of_nil in Hc.
    + vm_compute. congruence.
    + vm_compute. congruence.
Defined.

(** * Watering, from the plot and from the crop *)

Lemma applyUpdate_water s c :
  farm_inv s → c ∈ crops s →
  applyUpdate (WaterCrop (CropData.id c)) s = waterResult s c.
Proof.
  intros Hinv Hc. unfold waterResult. simpl. f_equal.
  apply list_fmap_ext. intros i c' Hi.
  apply list_elem_of_lookup_2 in Hi. unfold growOnly.
  repeat case_decide; subst; try done.
  destruct H0. by apply (farm_inv_id_inj s).
Qed.

Lemma waterResult_ne s c : waterResult s c ≠ s.
Proof. intros Heq. apply (f_equal energy) in Heq. simpl in Heq. lia. Qed.

Lemma interactPlot_water s x z now rnd :
  farm_inv s → selectedTool s = water →
  interactPlot s x z now rnd =
    match cropAt s x z with
    | Some c => if decide (CropData.stage c < 3 ∧ 3 ≤ energy s)
                then waterResult s c else s
    | None => s
    end.
Proof.
  intros Hinv Ht. unfold interactPlot. rewrite handlePlotClick_water by done.
  destruct (cropAt s x z) as [c|] eqn:Hf; [|done].
  apply cropAt_Some in Hf as [Hc _].
  case_decide; [|done]. by apply applyUpdate_water.
Qed.

Lemma interactCrop_water s c :
  farm_inv s → selectedTool s = water → c ∈ crops s →
  interactCrop s c =
    if decide (CropData.stage c < 3 ∧ 3 ≤ energy s)
    then waterResult s c else s.
Proof.
  intros Hinv Ht Hc. unfold interactCrop. rewrite handleCropClick_water by done.
  case_decide; [|done]. by apply applyUpdate_water.
Qed.

Lemma waterResult_grown s c :
  CropData.stage c < 3 →
  waterResult s c =
    {| day := day s; season := season s; gold := gold s;
       energy := energy s - 3; selectedTool := selectedTool s;
       crops :=
         (λ c', if decide (c' = c)
                then {| CropData.id := CropData.id c;
                        CropData.x := CropData.x c;
                        CropData.z := CropData.z c;
                        CropData.type := CropData.type c;
                        CropData.stage := CropData.stage c + 1;
                        CropData.plantedDay := CropData.plantedDay c |}
                else c') <$> crops s;
       tiledPlots := tiledPlots s |}.
Proof.
  intros Hst. unfold waterResult. f_equal.
  apply list_fmap_ext. intros i c' _. unfold growOnly.
  case_decide; [|done].
  unfold CropData.with_stage. f_equal. lia.
Qed.

(** C5.  In a reachable state with the watering can selected, a water
    action, through a click on the plot of a crop or on the crop itself,
    changes the state exactly when the crop is there, its stage is below
    3 and energy is at least 3.  Then the state afterwards holds, in the
    place of that crop, the same crop with stage [stage + 1] (which is
    [min (stage+1) 3]), the crop with the old stage is gone, energy is 3
    lower, and every other crop and every other field is as it was.
    Watering a crop at stage 3 changes nothing. *)
Theorem C5_water (s : GameState) :
  reachable s → selectedTool s = water →
  let grown c :=
    {| CropData.id := CropData.id c;
       CropData.x := CropData.x c;
       CropData.z := CropData.z c;
       CropData.type := CropData.type c;
       CropData.stage := CropData.stage c + 1;
       CropData.plantedDay := CropData.plantedDay c |} in
  let after c :=
    {| day := day s; season := season s; gold := gold s;
       energy := energy s - 3; selectedTool := selectedTool s;
       crops := (λ c', if decide (c' = c) then grown c else c') <$> crops s;
       tiledPlots := tiledPlots s |} in
  (∀ x z now rnd,
     let s' := interactPlot s x z now rnd in
     (s' ≠ s ↔ ∃ c, c ∈ crops s ∧ CropData.x c = x ∧ CropData.z c = z
                    ∧ CropData.stage c < 3 ∧ 3 ≤ energy s)
     ∧ (∀ c, c ∈ crops s → CropData.x c = x → CropData.z c = z →
          (CropData.stage c < 3 ∧ 3 ≤ energy s →
             s' = after c
             ∧ grown c ∈ crops s'
             ∧ (c ∉ crops s')
             ∧ energy s' = energy s - 3
             ∧ Z.min (CropData.stage c + 1) 3 = CropData.stage c + 1)
          ∧ (CropData.stage c = 3 → s' = s)))
  ∧ (∀ c, c ∈ crops s →
     let s' := interactCrop s c in
     (s' ≠ s ↔ CropData.stage c < 3 ∧ 3 ≤ energy s)
     ∧ (CropData.stage c < 3 ∧ 3 ≤ energy s →
          s' = after c
          ∧ grown c ∈ crops s'
          ∧ (c ∉ crops s')
          ∧ energy s' = energy s - 3
          ∧ Z.min (CropData.stage c + 1) 3 = CropData.stage c + 1)
     ∧ (CropData.stage c = 3 → s' = s)).
Proof.
  intros Hinv%reachable_farm_inv Ht grown after.
  assert (∀ c, c ∈ crops s → CropData.stage c < 3 →
            waterResult s c = after c
            ∧ grown c ∈ crops (waterResult s c)
            ∧ (c ∉ crops (waterResult s c))
            ∧ energy (waterResult s c) = energy s - 3
            ∧ Z.min (CropData.stage c + 1) 3 = CropData.stage c + 1)
    as Hgrown.
  { intros c Hc Hst. rewrite waterResult_grown by done.
    split_and!; [done| | |done|lia].
    - simpl. apply list_elem_of_fmap. exists c.
      split; [|done]. by rewrite decide_True.
    - simpl. intros (c' & Heq & Hc')%list_elem_of_fmap.
      case_decide as Hd.
      + apply (f_equal CropData.stage) in Heq. simpl in Heq. lia.
      + by subst c'. }
  split.
  - intros x z now rnd s'. unfold s'. clear s'.
    rewrite interactPlot_water by done.
    destruct (cropAt s x z) as [c0|] eqn:Hf.
    + pose proof Hf as [Hc0 [= Hx0 Hz0]]%cropAt_Some.
      assert (∀ c, c ∈ crops s → CropData.x c = x → CropData.z c = z →
                   c = c0) as Huniq.
      { intros c Hc Hx Hz.
        apply (NoDup_fmap_elem_inj position (crops s)); [apply Hinv|done..|].
        unfold position. congruence. }
      split.
      * case_decide as Hok.
        -- split; [|intros _; apply waterResult_ne]. intros _.
           exists c0. tauto.
        -- split; [done|]. intros (c & Hc & Hx & Hz & Hst).
           rewrite (Huniq c Hc Hx Hz) in Hst. tauto.
      * intros c Hc Hx Hz. rewrite (Huniq c Hc Hx Hz). split.
        -- intros Hok. rewrite decide_True by done.
           apply Hgrown; [done|lia].
        -- intros Hst. rewrite decide_False; [done|lia].
    + split.
      * split; [done|]. intros (c & Hc & Hx & Hz & _).
        destruct (cropAt_None s x z c Hf Hc). unfold position. congruence.
      * intros c Hc Hx Hz.
        destruct (cropAt_None s x z c Hf Hc). unfold position. congruence.
  - intros c Hc s'. unfold s'. clear s'.
    rewrite interactCrop_water by done. split_and!.
    + case_decide; [|tauto]. split; [done|]. intros _. apply waterResult_ne.
    + intros Hok. rewrite decide_True by done. apply Hgrown; [done|lia].
    + intros Hst. rewrite decide_False; [done|lia].
Qed.

Lemma C5_water_witness :
  crops (interactCrop (run initialState (tomatoTrace 0)) (tomatoCrop 0))
  = [tomatoCrop 1]
  ∧ energy (interactCrop (run initialState (tomatoTrace 0)) (tomatoCrop 0))
    = 90.
Proof.
  pose proof (C5_water (run initialState (tomatoTrace 0))
                (tomatoTrace_reachable 0) eq_refl) as H.
  cbv zeta in H. destruct H as [_ Hcrop].
  destruct (Hcrop (tomatoCrop 0)) as (_ & Hok & _).
  - vm_compute. left.
  - destruct Hok as (Heq & _ & _ & Hen & _).
    + vm_compute. split; congruence.
    + split; [|rewrite Hen; reflexivity].
      rewrite Heq. vm_compute. reflexivity.
Defined.

(** C9.  In a reachable state with the watering can selected, a click on
    the plot (x,z) and a click on the crop that stands at (x,z) lead to
    the same state, also when the action is refused. *)
Theorem C9_water_entry_points_agree
    (s : GameState) (c : CropData.t) (x z now : Z) (rnd : CropType) :
  reachable s → selectedTool s = water →
  c ∈ crops s → CropData.x c = x → CropData.z c = z →
  interactPlot s x z now rnd = interactCrop s c.
Proof.
  intros Hinv%reachable_farm_inv Ht Hc <- <-.
  rewrite interactPlot_water, interactCrop_water by done.
  rewrite cropAt_elem; [done|apply Hinv|done].
Qed.

Lemma C9_water_entry_points_agree_witness :
  interactPlot (run initialState (tomatoTrace 1)) 0 0 5 turnip
  = interactCrop (run initialState (tomatoTrace 1)) (tomatoCrop 1).
Proof.
  apply C9_water_entry_points_agree;
    [apply tomatoTrace_reachable|reflexivity| |reflexivity..].
  vm_compute. left.
Defined.

(** * Harvest *)

Lemma applyUpdate_harvest s c :
  farm_inv s → c ∈ crops s →
  applyUpdate
    (HarvestCrop (CropData.id c) (CROP_PRICES (CropData.type c))) s
  = harvestResult s c.
Proof.
  intros Hinv Hc. unfold harvestResult. simpl. f_equal.
  apply filter_ext_elem. intros c' Hc'. split; [congruence|].
  intros Hne Hid. apply Hne. by apply (farm_inv_id_inj s).
Qed.

Lemma harvestResult_ne s c : c ∈ crops s → harvestResult s c ≠ s.
Proof.
  intros Hc Heq. apply (f_equal crops) in Heq. simpl in Heq.
  rewrite <-Heq in Hc. apply list_elem_of_filter in Hc as [Hne _]. done.
Qed.

Lemma interactCrop_harvest s c :
  farm_inv s → selectedTool s = harvest → c ∈ crops s →
  interactCrop s c =
    if decide (CropData.stage c = 3) then harvestResult s c else s.
Proof.
  intros Hinv Ht Hc. unfold interactCrop.
  rewrite handleCropClick_harvest by done.
  case_decide; [|done]. by apply applyUpdate_harvest.
Qed.

(** C6.  In a reachable state with the harvest tool selected, a click on
    a crop of the state changes the state exactly when that crop's stage
    is 3.  Then the crop leaves the collection and gold grows by the
    price of its type: carrot 35, tomato 60, corn 50, turnip 40.  A crop
    below stage 3 is left alone and nothing changes. *)
Theorem C6_harvest (s : GameState) (c : CropData.t) :
  reachable s → selectedTool s = harvest → c ∈ crops s →
  let s' := interactCrop s c in
  (s' ≠ s ↔ CropData.stage c = 3)
  ∧ (CropData.stage c = 3 →
       s' = harvestResult s c
       ∧ (c ∉ crops s')
       ∧ gold s' = gold s + CROP_PRICES (CropData.type c))
  ∧ (CropData.stage c < 3 → s' = s)
  ∧ (CROP_PRICES carrot = 35 ∧ CROP_PRICES tomato = 60
     ∧ CROP_PRICES corn = 50 ∧ CROP_PRICES turnip = 40)
  ∧ (CropData.type c = tomato → CropData.stage c = 3 →
       gold s' = gold s + 60).
Proof.
  intros Hinv%reachable_farm_inv Ht Hc s'. unfold s'. clear s'.
  rewrite interactCrop_harvest by done.
  case_decide as Hst; split_and!; try done; try lia.
  - split; [done|]. intros _. by apply harvestResult_ne.
  - intros _. split_and!; [done| |done].
    simpl. intros [Hne _]%list_elem_of_filter. done.
  - intros Hty _. simpl. by rewrite Hty.
Qed.

Lemma C6_harvest_witness :
  gold (interactCrop (selectTool (run initialState (tomatoTrace 3)) harvest)
                     (tomatoCrop 3)) = 540.
Proof.
  pose (s := selectTool (run initialState (tomatoTrace 3)) harvest).
  assert (reachable s) as Hs.
  { apply (reachable_step _ (SelectTool harvest)); [|done].
    apply tomatoTrace_reachable. }
  pose proof (C6_harvest s (tomatoCrop 3) Hs eq_refl) as H.
  cbv zeta in H. destruct H as (_ & _ & _ & _ & Hgold).
  - vm_compute. left.
  - change (gold (interactCrop s (tomatoCrop 3)) = 540).
    rewrite Hgold; reflexivity.
Defined.

(** C10.  A harvest click never touches energy, day, season, tilled plots
    or the selected tool, in any state.  When the clicked crop is at stage
    3 it is removed and its full price is paid, with no condition on
    energy or gold; otherwise gold and crops stay as they are.  In a
    reachable state no other crop is added, removed or altered. *)
Theorem C10_harvest_frame (s : GameState) (c : CropData.t) :
  selectedTool s = harvest →
  let s' := interactCrop s c in
  (energy s' = energy s ∧ day s' = day s ∧ season s' = season s
   ∧ tiledPlots s' = tiledPlots s ∧ selectedTool s' = selectedTool s)
  ∧ (CropData.stage c = 3 →
       gold s' = gold s + CROP_PRICES (CropData.type c) ∧ c ∉ crops s')
  ∧ (CropData.stage c ≠ 3 → gold s' = gold s ∧ crops s' = crops s)
  ∧ (reachable s → c ∈ crops s →
       filter (λ c', c' ≠ c) (crops s') = filter (λ c', c' ≠ c) (crops s)
       ∧ (CropData.stage c = 3 →
            crops s' = filter (λ c', c' ≠ c) (crops s))).
Proof.
  intros Ht s'. split; [|split; [|split]].
  - unfold s', interactCrop. rewrite handleCropClick_harvest by done.
    by case_decide.
  - intros Hst. unfold s', interactCrop.
    rewrite handleCropClick_harvest, decide_True by done. simpl.
    split; [done|]. intros [Hne _]%list_elem_of_filter. done.
  - intros Hst. unfold s', interactCrop.
    by rewrite handleCropClick_harvest, decide_False by done.
  - intros Hinv%reachable_farm_inv Hc. unfold s'.
    rewrite interactCrop_harvest by done.
    case_decide as Hst; simpl; [|done]. split; [|done].
    by rewrite list_filter_filter, (list_filter_iff _ (λ c', c' ≠ c))
      by (intros; tauto).
Qed.

Lemma C10_harvest_frame_witness :
  energy (run initialState exhaustingTrace) = 0
  ∧ gold (run initialState exhaustingTrace) = 440
  ∧ gold (interactCrop (run initialState exhaustingTrace) (tomatoCrop 3))
    = 500
  ∧ energy (interactCrop (run initialState exhaustingTrace) (tomatoCrop 3))
    = 0.
Proof.
  pose proof (C10_harvest_frame (run initialState exhaustingTrace)
                (tomatoCrop 3) eq_refl) as H.
  cbv zeta in H. destruct H as ((He & _) & Hgold & _).
  destruct Hgold as (Hg & _); [reflexivity|].
  rewrite Hg, He. vm_compute. repeat split.
Defined.

(** * Plots, positions and crop identifiers *)

Lemma step_tiled_mono s e : tiledPlots s ⊆ tiledPlots (step s e).
Proof.
  destruct e as [tool|x z now rnd|crop|]; simpl; [done| | |done].
  - unfold interactPlot.
    destruct (handlePlotClick_cases s x z now rnd)
      as [->|[(-> & ?)|[(-> & ?)|(c & -> & ?)]]]; simpl; try done.
    apply union_subseteq_l.
  - unfold interactCrop.
    destruct (handleCropClick_cases s crop) as [->|[(-> & ?)|(-> & ?)]]; done.
Qed.

Lemma run_tiled_mono s evs : tiledPlots s ⊆ tiledPlots (run s evs).
Proof.
  revert s. induction evs as [|e evs IH]; simpl; intros s; [done|].
  etrans; [apply (step_tiled_mono s e)|apply IH].
Qed.

(** C8.  In every reachable state no two crops stand on the same
    coordinate and every crop stands on a tilled plot; a crop is planted
    only on a plot that is in the tilled set at that moment; and no
    operation ever removes a plot from the tilled set. *)
Theorem C8_one_crop_per_tilled_plot (s : GameState) :
  reachable s →
  NoDup (position <$> crops s)
  ∧ (∀ c1 c2, c1 ∈ crops s → c2 ∈ crops s →
       CropData.x c1 = CropData.x c2 → CropData.z c1 = CropData.z c2 →
       c1 = c2)
  ∧ (∀ c, c ∈ crops s →
       plotKey (CropData.x c) (CropData.z c) ∈ tiledPlots s)
  ∧ (∀ x z now rnd c,
       handlePlotClick s x z now rnd = PlantCrop c →
       CropData.x c = x ∧ CropData.z c = z
       ∧ plotKey x z ∈ tiledPlots s
       ∧ crops (interactPlot s x z now rnd) = crops s ++ [c])
  ∧ (∀ e, tiledPlots s ⊆ tiledPlots (step s e))
  ∧ (∀ evs, tiledPlots s ⊆ tiledPlots (run s evs)).
Proof.
  intros Hinv%reachable_farm_inv. split_and!.
  - apply Hinv.
  - intros c1 c2 H1 H2 Hx Hz.
    apply (NoDup_fmap_elem_inj position (crops s)); [apply Hinv|done..|].
    unfold position. by rewrite Hx, Hz.
  - apply Hinv.
  - intros x z now rnd c Hplant. unfold interactPlot. rewrite Hplant.
    destruct (handlePlotClick_cases s x z now rnd)
      as [Hh|[(Hh & ?)|[(Hh & ? & ? & ?)|(c' & Hh & ?)]]];
      rewrite Hh in Hplant; try discriminate.
    injection Hplant as <-. done.
  - apply step_tiled_mono.
  - apply run_tiled_mono.
Qed.

Lemma C8_one_crop_per_tilled_plot_witness :
  NoDup (position <$> crops (run initialState exhaustingTrace)).
Proof.
  apply (C8_one_crop_per_tilled_plot (run initialState exhaustingTrace)).
  apply exhaustingTrace_reachable.
Defined.

Lemma plantLog_stamp s evs now c :
  (now, c) ∈ plantLog s evs →
  CropData.id c = cropId (CropData.x c) (CropData.z c) now.
Proof.
  revert s. induction evs as [|e evs IH]; simpl; intros s Hin.
  - by apply elem_of_nil in Hin.
  - apply elem_of_app in Hin as [Hin|Hin]; [|by eapply IH].
    destruct e as [tool|x z t rnd|crop|]; simpl in Hin;
      try by apply elem_of_nil in Hin.
    destruct (handlePlotClick_cases s x z t rnd)
      as [Hh|[(Hh & ?)|[(Hh & ?)|(c' & Hh & ?)]]];
      rewrite Hh in Hin; try by apply elem_of_nil in Hin.
    apply list_elem_of_singleton in Hin as [= -> ->]. done.
Qed.

(** C7, as stated, fails: the second crop planted on plot (0,0), after the
    first one was harvested, gets the id of the first one when the clock
    reading is the same. *)
Lemma C7_ids_unique_counterexample :
  enabled_all initialState replantTrace
  ∧ assignedIds initialState replantTrace = ["0-0-1000"; "0-0-1000"]
  ∧ ¬ NoDup (assignedIds initialState replantTrace).
Proof.
  split_and!.
  - apply (bool_decide_unpack _). vm_compute. exact I.
  - vm_compute. done.
  - assert (assignedIds initialState replantTrace = ["0-0-1000"; "0-0-1000"])
      as -> by (vm_compute; done).
    intros [Hnd _]%NoDup_cons. apply Hnd. left.
Qed.

(** C7, amended.  The crops that are in the collection of a reachable
    state have pairwise distinct ids, whatever the clock readings were;
    and two plantings of a run are assigned the same id only if they are
    on the same plot and read the same clock value. *)
Theorem C7_crop_ids :
  (∀ s, reachable s → NoDup (CropData.id <$> crops s))
  ∧ (∀ s evs i j ti ci tj cj,
       plantLog s evs !! i = Some (ti, ci) →
       plantLog s evs !! j = Some (tj, cj) →
       CropData.id ci = CropData.id cj →
       CropData.x ci = CropData.x cj ∧ CropData.z ci = CropData.z cj
       ∧ ti = tj).
Proof.
  split.
  - intros s Hs. by apply farm_inv_ids, reachable_farm_inv.
  - intros s evs i j ti ci tj cj Hi%list_elem_of_lookup_2 Hj%list_elem_of_lookup_2 Hid.
    apply plantLog_stamp in Hi, Hj. rewrite Hi, Hj in Hid.
    by apply cropId_inj in Hid.
Qed.

Lemma C7_crop_ids_witness :
  NoDup (CropData.id <$> crops (run initialState exhaustingTrace)).
Proof.
  apply (proj1 C7_crop_ids). apply exhaustingTrace_reachable.
Defined.

(** * Further properties of the templates and the crop records *)

(** X1.  The three key templates are injective on integers, negative
    ones included: two plots share a tilled-set key or a React key only
    if they are the same plot, and two crop ids are equal only if
    position and clock reading are. *)
Theorem X1_templates_injective :
  (∀ x z x' z', plotKey x z = plotKey x' z' → x = x' ∧ z = z')
  ∧ (∀ x z x' z', plotReactKey x z = plotReactKey x' z' → x = x' ∧ z = z')
  ∧ (∀ x z now x' z' now',
       cropId x z now = cropId x' z' now' → x = x' ∧ z = z' ∧ now = now').
Proof.
  split_and!.
  - apply plotKey_inj.
  - intros x z x' z' Heq. unfold plotReactKey in Heq.
    apply (pretty_Z_sep_inj "-") in Heq as [-> Hz];
      [|unfold digit; vm_compute; lia].
    split; [done|]. by apply (inj pretty).
  - apply cropId_inj.
Qed.

Lemma X1_templates_injective_witness :
  plotKey (-1) 12 ≠ plotKey (-11) 2 ∧ plotReactKey 1 (-2) ≠ plotReactKey (-1) 2.
Proof.
  destruct X1_templates_injective as (Hk & Hr & _).
  split; intros Heq; [apply Hk in Heq|apply Hr in Heq]; lia.
Defined.

Lemma reachable_plantedDay s :
  reachable s →
  1 ≤ day s ∧ ∀ c, c ∈ crops s → 1 ≤ CropData.plantedDay c ≤ day s.
Proof.
  revert s. apply reachable_inv.
  - split; [done|]. intros c Hc. by apply elem_of_nil in Hc.
  - intros s e [Hd Hp] _.
    destruct e as [tool|x z now rnd|crop|]; simpl.
    + done.
    + unfold interactPlot.
      destruct (handlePlotClick_cases s x z now rnd)
        as [->|[(-> & ?)|[(-> & ?)|(c0 & -> & ?)]]]; simpl;
        (split; [done|]); try done.
      * intros c [Hc| ->%list_elem_of_singleton]%elem_of_app;
          [by apply Hp|simpl; lia].
      * intros c' (c & -> & Hc)%list_elem_of_fmap.
        specialize (Hp c Hc). by case_decide.
    + unfold interactCrop.
      destruct (handleCropClick_cases s crop) as [->|[(-> & ?)|(-> & ?)]];
        simpl; (split; [done|]); try done.
      * intros c [_ Hc]%list_elem_of_filter. by apply Hp.
      * intros c' (c & -> & Hc)%list_elem_of_fmap.
        specialize (Hp c Hc). by case_decide.
    + split; [lia|]. intros c Hc. specialize (Hp c Hc). lia.
Qed.

(** X2.  Every crop of a reachable state has a stage between 0 and 3, was
    planted on a day between day 1 and today, and carries the id made
    from its own position and some clock reading. *)
Theorem X2_crop_records (s : GameState) (c : CropData.t) :
  reachable s → c ∈ crops s →
  0 ≤ CropData.stage c ≤ 3
  ∧ 1 ≤ CropData.plantedDay c ≤ day s
  ∧ ∃ now, CropData.id c = cropId (CropData.x c) (CropData.z c) now.
Proof.
  intros Hs Hc. pose proof (reachable_farm_inv s Hs) as Hinv.
  destruct (reachable_plantedDay s Hs) as [_ Hp].
  split; [by apply Hinv|]. split; [by apply Hp|by apply Hinv].
Qed.

Lemma X2_crop_records_witness :
  0 ≤ CropData.stage (tomatoCrop 3) ≤ 3.
Proof.
  apply (X2_crop_records (run initialState exhaustingTrace) (tomatoCrop 3)
           exhaustingTrace_reachable).
  vm_compute. left.
Defined.

(** * The crop component *)

Lemma Crop_stage crop :
  Crop crop =
    if decide (CropData.stage crop = 0) then [SeedModel]
    else if decide (CropData.stage crop = 1) then [SproutModel]
    else if decide (CropData.stage crop = 2) then [GrowingModel]
    else if decide (CropData.stage crop = 3)
         then [ReadyModel (cropProduce crop)]
    else [].
Proof.
  unfold Crop. rewrite !eqb_spec.
  repeat case_bool_decide; repeat case_decide; simpl; try done; lia.
Qed.

(** X3.  A [Crop] draws one stage model when the stage is 0, 1, 2 or 3 and
    nothing at all for any other stage; every crop of a reachable state
    is therefore drawn, by exactly one model, and a ready crop shows
    exactly one produce mesh, the one of its type in the colour of its
    type. *)
Theorem X3_crop_is_drawn_once :
  (∀ crop, Crop crop ≠ [] ↔ 0 ≤ CropData.stage crop ≤ 3)
  ∧ (∀ crop, (length (Crop crop) ≤ 1)%nat)
  ∧ (∀ s crop, reachable s → crop ∈ crops s → ∃ m, Crop crop = [m])
  ∧ (∀ crop, CropData.stage crop = 3 →
       Crop crop =
         [ReadyModel
            [(match CropData.type crop with
              | carrot => carrotCone
              | tomato => tomatoSphere
              | corn => cornCob
              | turnip => turnipSphere
              end, CROP_COLORS (CropData.type crop))]]).
Proof.
  split_and!.
  - intros crop. rewrite Crop_stage.
    repeat case_decide; split; (done || lia).
  - intros crop. rewrite Crop_stage. repeat case_decide; simpl; lia.
  - intros s crop Hs Hc.
    pose proof (inv_stage s (reachable_farm_inv s Hs) crop Hc) as Hst.
    rewrite Crop_stage. repeat case_decide; try (by eexists). lia.
  - intros crop Hst. rewrite Crop_stage.
    repeat (case_decide; [lia|]). rewrite decide_True by done.
    unfold cropProduce. by destruct (CropData.type crop).
Qed.

Lemma X3_crop_is_drawn_once_witness :
  Crop (tomatoCrop 3) = [ReadyModel [(tomatoSphere, "#FF6347")]]
  ∧ Crop (tomatoCrop 4) = [].
Proof.
  destruct X3_crop_is_drawn_once as (Hnone & _ & _ & Hready).
  split; [by apply (Hready (tomatoCrop 3))|].
  destruct (Crop (tomatoCrop 4)) as [|m l] eqn:Heq; [done|].
  assert (Crop (tomatoCrop 4) ≠ []) as Hne by (by rewrite Heq).
  apply Hnone in Hne. simpl in Hne. lia.
Defined.

(** * Money and room *)

Lemma length_filter_ne {A} `{EqDecision A} (l : list A) (a : A) :
  NoDup l → a ∈ l → S (length (filter (λ b, b ≠ a) l)) = length l.
Proof.
  induction l as [|b l IH]; intros Hnd Ha.
  - by apply elem_of_nil in Ha.
  - apply NoDup_cons in Hnd as [Hb Hnd]. rewrite filter_cons.
    apply elem_of_cons in Ha as [->|Ha].
    + rewrite decide_False by (intros H; by apply H). simpl. f_equal.
      clear IH Hnd. induction l as [|c l IH]; [done|].
      rewrite filter_cons. apply not_elem_of_cons in Hb as [Hne Hb].
      rewrite decide_True by done. simpl. f_equal. by apply IH.
    + rewrite decide_True by (intros ->; done). simpl. f_equal. by apply IH.
Qed.

Lemma step_wealth s e :
  farm_inv s → enabled s e → wealth s ≤ wealth (step s e).
Proof.
  intros Hinv He. unfold wealth.
  destruct e as [tool|x z now rnd|crop|]; simpl; [done| | |done].
  - unfold interactPlot.
    destruct (handlePlotClick_cases s x z now rnd)
      as [->|[(-> & ?)|[(-> & ?)|(c & -> & ?)]]]; simpl; try done.
    + rewrite length_app. simpl. lia.
    + by rewrite length_fmap.
  - simpl in He. unfold interactCrop.
    destruct (handleCropClick_cases s crop) as [Hh|[(Hh & ?)|(Hh & ?)]].
    + by rewrite Hh.
    + rewrite Hh, applyUpdate_harvest by done. simpl.
      pose proof (length_filter_ne (crops s) crop) as Hlen.
      rewrite <-Hlen; [|by eapply NoDup_fmap_1, inv_positions|done].
      assert (35 ≤ CROP_PRICES (CropData.type crop))
        by (by destruct (CropData.type crop)).
      lia.
    + rewrite Hh. simpl. by rewrite length_fmap.
Qed.

(** X4.  Gold plus 20 for every crop in the field never goes down along
    the game and is at least the 500 gold of the start: planting moves 20
    gold into the field and every harvest brings back at least 35.  So a
    player who cannot pay for a seed has at least 25 crops standing. *)
Theorem X4_wealth_never_shrinks (s : GameState) :
  reachable s →
  500 ≤ gold s + 20 * Z.of_nat (length (crops s))
  ∧ (gold s < 20 → (25 ≤ length (crops s))%nat)
  ∧ (∀ e, enabled s e →
       gold s + 20 * Z.of_nat (length (crops s))
       ≤ gold (step s e) + 20 * Z.of_nat (length (crops (step s e))))
  ∧ (∀ c, selectedTool s = harvest → c ∈ crops s → CropData.stage c = 3 →
       gold s + 20 * Z.of_nat (length (crops s)) + 15
       ≤ gold (interactCrop s c)
         + 20 * Z.of_nat (length (crops (interactCrop s c)))).
Proof.
  intros Hs.
  assert (500 ≤ wealth s) as Hw.
  { revert s Hs. apply (reachable_inv (λ s, farm_inv s ∧ 500 ≤ wealth s)).
    - split; [apply initial_inv|done].
    - intros s e [Hinv Hw] He. split; [by apply step_inv|].
      etrans; [exact Hw|by apply step_wealth]. }
  unfold wealth in Hw. split_and!.
  - done.
  - lia.
  - intros e He. apply step_wealth; [by apply reachable_farm_inv|done].
  - intros c Ht Hc Hst. pose proof (reachable_farm_inv s Hs) as Hinv.
    rewrite interactCrop_harvest, decide_True by done. simpl.
    pose proof (length_filter_ne (crops s) c) as Hlen.
    rewrite <-Hlen; [|by eapply NoDup_fmap_1, inv_positions|done].
    assert (35 ≤ CROP_PRICES (CropData.type c))
      by (by destruct (CropData.type c)).
    lia.
Qed.

Lemma X4_wealth_never_shrinks_witness :
  500 ≤ gold (run initialState exhaustingTrace)
        + 20 * Z.of_nat (length (crops (run initialState exhaustingTrace))).
Proof.
  destruct (X4_wealth_never_shrinks (run initialState exhaustingTrace)
              exhaustingTrace_reachable) as [Hw _].
  exact Hw.
Defined.

Lemma crop_keys_NoDup s :
  farm_inv s →
  NoDup ((λ c, plotKey (CropData.x c) (CropData.z c)) <$> crops s).
Proof.
  intros Hinv.
  apply NoDup_fmap_2_strong; [|by eapply NoDup_fmap_1, inv_positions].
  intros a b Ha Hb [Hx Hz]%plotKey_inj.
  apply (NoDup_fmap_elem_inj position (crops s));
    [apply Hinv|done..|]. unfold position. by rewrite Hx, Hz.
Qed.

Lemma crops_le_tilled s :
  farm_inv s → (length (crops s) ≤ size (tiledPlots s))%nat.
Proof.
  intros Hinv. pose proof (crop_keys_NoDup s Hinv) as Hnd.
  rewrite <-(length_fmap (λ c, plotKey (CropData.x c) (CropData.z c))).
  rewrite <-(size_list_to_set (C := gset string)) by done.
  apply subseteq_size. intros k Hk.
  apply elem_of_list_to_set in Hk.
  apply list_elem_of_fmap in Hk as (c & -> & Hc). by apply Hinv.
Qed.

(** X5.  A reachable state never holds more crops than tilled plots. *)
Theorem X5_crops_fit_tilled_plots (s : GameState) :
  reachable s → (length (crops s) ≤ size (tiledPlots s))%nat.
Proof. intros Hinv%reachable_farm_inv. by apply crops_le_tilled. Qed.

Lemma X5_crops_fit_tilled_plots_witness :
  (length (crops (run initialState exhaustingTrace))
   ≤ size (tiledPlots (run initialState exhaustingTrace)))%nat.
Proof.
  apply X5_crops_fit_tilled_plots. apply exhaustingTrace_reachable.
Defined.

(** * The grid of the scene *)

Lemma offered_enabled s e : offered s e → enabled s e.
Proof. by destruct e. Qed.

Lemma uiReachable_reachable s : uiReachable s → reachable s.
Proof.
  induction 1 as [|s e _ IH He]; [constructor|].
  constructor; [done|by apply offered_enabled].
Qed.

Lemma uiReachable_inv (P : GameState → Prop) :
  P initialState →
  (∀ s e, P s → offered s e → P (step s e)) →
  ∀ s, uiReachable s → P s.
Proof. intros H0 Hstep s Hs. induction Hs; eauto. Qed.

Lemma gridKeys_elem k :
  k ∈ gridKeys ↔ ∃ x z, (0 ≤ x < 7) ∧ (0 ≤ z < 7) ∧ k = plotKey x z.
Proof.
  unfold gridKeys. rewrite list_elem_of_bind. split.
  - intros (x & (z & Hk & Hz)%list_elem_of_bind & Hx).
    apply list_elem_of_singleton in Hk.
    apply elem_of_seqZ in Hx, Hz. exists x, z. split_and!; (done || lia).
  - intros (x & z & Hx & Hz & ->). exists x. split.
    + apply list_elem_of_bind. exists z.
      split; [by apply list_elem_of_singleton|]. apply elem_of_seqZ. lia.
    + apply elem_of_seqZ. lia.
Qed.

Lemma gridKeys_NoDup : NoDup gridKeys.
Proof. apply (bool_decide_unpack _). vm_compute. exact I. Qed.

Lemma gridKeys_length : length gridKeys = 49%nat.
Proof. reflexivity. Qed.

Lemma uiReachable_grid s :
  uiReachable s →
  (∀ c, c ∈ crops s →
     (0 ≤ CropData.x c < 7) ∧ (0 ≤ CropData.z c < 7))
  ∧ (∀ k, k ∈ tiledPlots s → k ∈ gridKeys).
Proof.
  revert s. apply uiReachable_inv.
  - split; [intros c Hc; by apply elem_of_nil in Hc|].
    intros k Hk. by apply not_elem_of_empty in Hk.
  - intros s e [Hc Hk] He.
    destruct e as [tool|x z now rnd|crop|]; simpl; [done| | |done].
    + simpl in He. unfold interactPlot.
      destruct (handlePlotClick_cases s x z now rnd)
        as [->|[(-> & ?)|[(-> & ?)|(c0 & -> & ?)]]]; simpl.
      * done.
      * split; [done|]. intros k [?| ->%elem_of_singleton]%elem_of_union;
          [by apply Hk|]. apply gridKeys_elem.
        destruct He as [? ?]. by exists x, z.
      * split; [|done].
        intros c [?| ->%list_elem_of_singleton]%elem_of_app;
          [by apply Hc|done].
      * split; [|done]. intros c' (c & -> & Hin)%list_elem_of_fmap.
        specialize (Hc c Hin). by case_decide.
    + unfold interactCrop.
      destruct (handleCropClick_cases s crop) as [->|[(-> & ?)|(-> & ?)]];
        simpl; [done| |].
      * split; [|done]. intros c [_ Hin]%list_elem_of_filter. by apply Hc.
      * split; [|done]. intros c' (c & -> & Hin)%list_elem_of_fmap.
        specialize (Hc c Hin). by case_decide.
Qed.

Lemma uiReachable_tilled_size s :
  uiReachable s → (size (tiledPlots s) ≤ 49)%nat.
Proof.
  intros [_ Hk]%uiReachable_grid.
  rewrite <-gridKeys_length.
  rewrite <-(size_list_to_set (C := gset string)) by apply gridKeys_NoDup.
  apply subseteq_size. intros k Hin. apply elem_of_list_to_set. by apply Hk.
Qed.

(** X6.  The page only offers clicks on the 7 x 7 grid and on the crops
    it shows.  In every state reached that way the crops and the tilled
    plots lie inside the grid, so there are at most 49 tilled plots and
    at most 49 crops, and every such state is a reachable state. *)
Theorem X6_game_stays_on_the_grid (s : GameState) :
  uiReachable s →
  reachable s
  ∧ (∀ c, c ∈ crops s →
       (0 ≤ CropData.x c < 7) ∧ (0 ≤ CropData.z c < 7))
  ∧ (∀ k, k ∈ tiledPlots s →
       ∃ x z, (0 ≤ x < 7) ∧ (0 ≤ z < 7) ∧ k = plotKey x z)
  ∧ (size (tiledPlots s) ≤ 49)%nat
  ∧ (length (crops s) ≤ 49)%nat.
Proof.
  intros Hs. pose proof (uiReachable_grid s Hs) as [Hc Hk].
  pose proof (uiReachable_reachable s Hs) as Hr.
  pose proof (uiReachable_tilled_size s Hs) as Hsize.
  split_and!; try done.
  - intros k Hin. by apply gridKeys_elem, Hk.
  - etrans; [apply crops_le_tilled; by apply reachable_farm_inv|done].
Qed.

Lemma exhaustingTrace_uiReachable :
  uiReachable (run initialState exhaustingTrace).
Proof.
  assert (∀ s evs, uiReachable s →
    Forall (λ e, match e with
                 | PlotClick x z _ _ => (0 ≤ x < 7) ∧ (0 ≤ z < 7)
                 | CropClick _ => False
                 | _ => True
                 end) evs →
    uiReachable (run s evs)) as Hrun.
  { intros s evs Hs Hall. revert s Hs.
    induction Hall as [|e evs He _ IH]; simpl; intros s Hs; [done|].
    apply IH. constructor; [done|]. by destruct e. }
  apply Hrun; [constructor|].
  unfold exhaustingTrace. repeat constructor; simpl; lia.
Qed.

Lemma X6_game_stays_on_the_grid_witness :
  (length (crops (run initialState exhaustingTrace)) ≤ 49)%nat.
Proof.
  destruct (X6_game_stays_on_the_grid (run initialState exhaustingTrace)
              exhaustingTrace_uiReachable) as (_ & _ & _ & _ & Hlen).
  exact Hlen.
Defined.

Lemma join_fmap_fmap {A B C D} (f : A → B → C) (g : C → D)
    (lx : list A) (lz : list B) :
  g <$> mjoin ((λ x, (λ z, f x z) <$> lz) <$> lx)
  = x ← lx; z ← lz; [g (f x z)].
Proof.
  induction lx as [|x lx IH]; [done|]. csimpl.
  rewrite fmap_app, IH. f_equal.
  clear IH. induction lz as [|z lz IH]; [done|]. csimpl. by rewrite IH.
Qed.

Lemma farmPlots_reactKeys s :
  plot_key <$> mjoin (farmPlots s)
  = x ← seqZ 0 7; z ← seqZ 0 7; [plotReactKey x z].
Proof. unfold farmPlots. by rewrite join_fmap_fmap. Qed.

Lemma farmPlots_keys s :
  (λ p, plotKey (plot_x p) (plot_z p)) <$> mjoin (farmPlots s) = gridKeys.
Proof. unfold farmPlots, gridKeys. by rewrite join_fmap_fmap. Qed.

Lemma farmPlots_elem s p :
  p ∈ mjoin (farmPlots s)
  ↔ ∃ x z, (0 ≤ x < 7) ∧ (0 ≤ z < 7) ∧ p = plotAt s x z.
Proof.
  unfold farmPlots. rewrite list_elem_of_join. split.
  - intros (row & Hp & (x & -> & Hx)%list_elem_of_fmap).
    apply list_elem_of_fmap in Hp as (z & -> & Hz).
    apply elem_of_seqZ in Hx, Hz. exists x, z. split_and!; (done || lia).
  - intros (x & z & Hx & Hz & ->).
    exists ((λ z, plotAt s x z) <$> seqZ 0 7). split.
    + apply list_elem_of_fmap. exists z. split; [done|].
      apply elem_of_seqZ. lia.
    + apply list_elem_of_fmap. exists x. split; [done|].
      apply elem_of_seqZ. lia.
Qed.

(** X7.  [FarmScene] draws 7 rows of 7 plots, one for each coordinate
    pair of the grid and no other, with pairwise distinct React keys; a
    plot gets [isTilled] exactly when its key is in the tilled set; and
    colour and furrows of a [FarmPlot] tell a tilled plot from an untilled
    one whether the pointer hovers over it or not. *)
Theorem X7_grid_shows_tilled_set :
  (∀ s, length (farmPlots s) = 7%nat
        ∧ Forall (λ row, length row = 7%nat) (farmPlots s))
  ∧ (∀ s p, p ∈ mjoin (farmPlots s)
            ↔ ∃ x z, (0 ≤ x < 7) ∧ (0 ≤ z < 7) ∧ p = plotAt s x z)
  ∧ (∀ s, NoDup (plot_key <$> mjoin (farmPlots s)))
  ∧ (∀ s p, p ∈ mjoin (farmPlots s) →
       (isTilled p = true
        ↔ plotKey (plot_x p) (plot_z p) ∈ tiledPlots s))
  ∧ (∀ t h t' h', plotColor t h = plotColor t' h' → t = t' ∧ h = h')
  ∧ (∀ t, plotFurrows t ≠ [] ↔ t = true).
Proof.
  split_and!.
  - intros s. unfold farmPlots. split.
    + by rewrite length_fmap, length_seqZ.
    + apply Forall_fmap, Forall_forall. intros x _. reflexivity.
  - apply farmPlots_elem.
  - intros s. rewrite farmPlots_reactKeys.
    apply (bool_decide_unpack _). vm_compute. exact I.
  - intros s p (x & z & _ & _ & ->)%farmPlots_elem. simpl.
    by rewrite bool_decide_eq_true.
  - by intros [] [] [] [] Heq.
  - intros []; split; done.
Qed.

Lemma X7_grid_shows_tilled_set_witness :
  isTilled (plotAt (interactPlot initialState 2 3 0 corn) 2 3) = true.
Proof.
  destruct X7_grid_shows_tilled_set as (_ & Helem & _ & Htilled & _).
  apply (Htilled (interactPlot initialState 2 3 0 corn)
           (plotAt (interactPlot initialState 2 3 0 corn) 2 3)).
  - apply Helem. exists 2, 3. split_and!; (lia || reflexivity).
  - vm_compute. reflexivity.
Defined.

(** X8.  In every state the page can reach, the number of plots drawn as
    tilled is the size of the tilled set, and every crop stands on a plot
    of the grid that is drawn as tilled. *)
Theorem X8_scene_matches_state (s : GameState) :
  uiReachable s →
  length (filter (λ p, isTilled p = true) (mjoin (farmPlots s)))
  = size (tiledPlots s)
  ∧ (∀ c, c ∈ crops s →
       ∃ p, p ∈ mjoin (farmPlots s)
            ∧ plot_x p = CropData.x c ∧ plot_z p = CropData.z c
            ∧ isTilled p = true).
Proof.
  intros Hs. pose proof (uiReachable_grid s Hs) as [Hc Hk].
  pose proof (reachable_farm_inv s (uiReachable_reachable s Hs)) as Hinv.
  split.
  - set (shown := filter (λ p, isTilled p = true) (mjoin (farmPlots s))).
    set (key := λ p, plotKey (plot_x p) (plot_z p)).
    assert (NoDup (key <$> shown)) as Hnd.
    { apply NoDup_fmap_filter. unfold key. rewrite farmPlots_keys.
      apply gridKeys_NoDup. }
    rewrite <-(length_fmap key).
    rewrite <-(size_list_to_set (C := gset string)) by done.
    f_equal. apply set_eq. intros k.
    rewrite elem_of_list_to_set, list_elem_of_fmap. split.
    + intros (p & -> & [Ht Hp]%list_elem_of_filter).
      apply farmPlots_elem in Hp as (x & z & _ & _ & ->).
      unfold key. simpl in *. by apply bool_decide_eq_true in Ht.
    + intros Hin. destruct (proj1 (gridKeys_elem k) (Hk k Hin))
        as (x & z & Hx & Hz & ->).
      exists (plotAt s x z). split; [done|].
      apply list_elem_of_filter. split.
      * simpl. by apply bool_decide_eq_true.
      * apply farmPlots_elem. by exists x, z.
  - intros c Hin. destruct (Hc c Hin) as [Hx Hz].
    exists (plotAt s (CropData.x c) (CropData.z c)). split_and!; try done.
    + apply farmPlots_elem. by exists (CropData.x c), (CropData.z c).
    + simpl. apply bool_decide_eq_true. by apply Hinv.
Qed.

Lemma X8_scene_matches_state_witness :
  length (filter (λ p, isTilled p = true)
            (mjoin (farmPlots (run initialState exhaustingTrace))))
  = 17%nat.
Proof.
  destruct (X8_scene_matches_state (run initialState exhaustingTrace)
              exhaustingTrace_uiReachable) as [Hn _].
  rewrite Hn. vm_compute. reflexivity.
Defined.

(** * The panels *)

(** X9.  The tools panel lists hoe, water, seed and harvest once each and
    marks exactly one button as selected, the one of the selected tool;
    after a click on a button it is that button. *)
Theorem X9_one_tool_button_selected (s : GameState) :
  (toolButtons s).*1 = [hoe; water; seed; harvest]
  ∧ filter (λ b, b.2 = true) (toolButtons s) = [(selectedTool s, true)]
  ∧ (∀ tool,
       filter (λ b, b.2 = true) (toolButtons (selectTool s tool))
       = [(tool, true)]).
Proof.
  split_and!.
  - done.
  - unfold toolButtons. by destruct (selectedTool s).
  - intros tool. unfold toolButtons. simpl. by destruct tool.
Qed.

Lemma seasonName_inj v v' : seasonName v = seasonName v' → v = v'.
Proof. by destruct v as [[]|], v' as [[]|]. Qed.

(** X10.  The four stat badges determine what they display: two states
    that show the same badge texts have the same day, season, energy and
    gold. *)
Theorem X10_badges_determine_stats (s s' : GameState) :
  statBadges s = statBadges s' →
  day s = day s' ∧ season s = season s'
  ∧ energy s = energy s' ∧ gold s = gold s'.
Proof.
  unfold statBadges. intros [= Hd Hs He Hg].
  apply pretty_Z_inj in Hd. apply pretty_Z_inj in He.
  apply seasonName_inj in Hs.
  assert (pretty (gold s) +:+ String "g" "" = pretty (gold s') +:+ String "g" "")
    as Hg' by exact Hg.
  apply pretty_Z_sep_inj in Hg' as [Hg' _];
    [|unfold digit; vm_compute; lia].
  done.
Qed.

Lemma X10_badges_determine_stats_witness :
  gold (selectTool initialState seed) = gold initialState.
Proof.
  symmetry.
  by apply (X10_badges_determine_stats initialState
              (selectTool initialState seed)).
Defined.

(** * Tools and targets *)

(** X11.  A click that does not fit the selected tool changes nothing:
    no plot click with the harvest tool, no crop click with the hoe or
    the seed bag, and, in a reachable state, no hoe click on a plot that
    carries a crop. *)
Theorem X11_wrong_tool_changes_nothing (s : GameState) :
  (selectedTool s = harvest →
     ∀ x z now rnd, interactPlot s x z now rnd = s)
  ∧ (selectedTool s = hoe ∨ selectedTool s = seed →
     ∀ crop, interactCrop s crop = s)
  ∧ (reachable s → selectedTool s = hoe →
     ∀ c now rnd, c ∈ crops s →
       interactPlot s (CropData.x c) (CropData.z c) now rnd = s).
Proof.
  split_and!.
  - intros Ht x z now rnd. unfold interactPlot.
    by rewrite handlePlotClick_harvest.
  - intros Ht crop. unfold interactCrop. by rewrite handleCropClick_other.
  - intros Hinv%reachable_farm_inv Ht c now rnd Hc. unfold interactPlot.
    rewrite handlePlotClick_hoe by done.
    rewrite decide_False; [done|]. intros [Hk _]. apply Hk. by apply Hinv.
Qed.

Lemma X11_wrong_tool_changes_nothing_witness :
  interactPlot (run initialState exhaustingTrace) 0 0 5 corn
  = run initialState exhaustingTrace.
Proof.
  destruct (X11_wrong_tool_changes_nothing (run initialState exhaustingTrace))
    as (Hh & _).
  apply Hh. reflexivity.
Defined.

(** * From seed to harvest *)

Lemma find_app_None {A} (f : A → bool) (l l' : list A) :
  find f l = None → find f (l ++ l') = find f l'.
Proof.
  induction l as [|a l IH]; simpl; [done|].
  destruct (f a); [done|]. apply IH.
Qed.

Lemma water_others (l : list CropData.t) target :
  (∀ c, c ∈ l → CropData.id c ≠ target) →
  (λ c, if decide (CropData.id c = target)
        then CropData.with_stage c (Z.min (CropData.stage c + 1) 3)
        else c) <$> l = l.
Proof.
  intros Hne. rewrite <-(list_fmap_id l) at 2.
  apply list_fmap_ext. intros i c Hc%list_elem_of_lookup_2.
  rewrite decide_False; [done|by apply Hne].
Qed.

Lemma harvest_others (l : list CropData.t) target :
  (∀ c, c ∈ l → CropData.id c ≠ target) →
  filter (λ c, CropData.id c ≠ target) l = l.
Proof.
  induction l as [|c l IH]; intros Hne; [done|].
  rewrite filter_cons, decide_True by (apply Hne; left).
  f_equal. apply IH. intros c' Hc'. apply Hne. by right.
Qed.

Lemma fresh_id s x z now c :
  farm_inv s → cropAt s x z = None → c ∈ crops s →
  CropData.id c ≠ cropId x z now.
Proof.
  intros Hinv Hnone Hc Heq.
  destruct (inv_ids s Hinv c Hc) as [t Ht]. rewrite Ht in Heq.
  apply cropId_inj in Heq as (Hx & Hz & _).
  apply (cropAt_None s x z c Hnone Hc). unfold position. by rewrite Hx, Hz.
Qed.

Lemma growing_water s x z now rnd k e now' rnd' :
  farm_inv s → cropAt s x z = None → 0 ≤ k < 3 → 3 ≤ e →
  interactPlot (growing s x z now rnd k e water) x z now' rnd'
  = growing s x z now rnd (k + 1) (e - 3) water.
Proof.
  intros Hinv Hnone Hk He. unfold interactPlot.
  rewrite handlePlotClick_water by done.
  unfold cropAt in *. simpl crops. rewrite find_app_None by done. simpl.
  rewrite !Z.eqb_refl. simpl. rewrite decide_True by lia.
  unfold growing. simpl. f_equal.
  rewrite fmap_app, water_others by (intros; by apply (fresh_id s x z)).
  simpl. rewrite decide_True by done. do 2 f_equal.
  unfold CropData.with_stage. simpl. f_equal. lia.
Qed.

(** X12.  A whole crop cycle in a reachable state: with the seed bag, a
    tilled free plot, 20 gold and 11 energy, planting at (x,z), picking
    the watering can, watering the plot three times, picking the harvest
    tool and clicking the ready crop leaves day, season, tilled plots and
    all other crops as they were, costs 11 energy and changes gold by the
    price of the drawn type minus 20. *)
Theorem X12_seed_to_harvest
    (s : GameState) (x z now : Z) (rnd : CropType)
    (now1 now2 now3 : Z) (rnd1 rnd2 rnd3 : CropType) :
  reachable s → selectedTool s = seed →
  plotKey x z ∈ tiledPlots s → cropAt s x z = None →
  20 ≤ gold s → 11 ≤ energy s →
  let ready := CropData.with_stage (plantedCrop s x z now rnd) 3 in
  let s1 := selectTool (interactPlot s x z now rnd) water in
  let s2 := interactPlot s1 x z now1 rnd1 in
  let s3 := interactPlot s2 x z now2 rnd2 in
  let s4 := selectTool (interactPlot s3 x z now3 rnd3) harvest in
  ready ∈ crops s4
  ∧ interactCrop s4 ready =
      {| day := day s; season := season s;
         gold := gold s - 20 + CROP_PRICES rnd;
         energy := energy s - 11; selectedTool := harvest;
         crops := crops s; tiledPlots := tiledPlots s |}.
Proof.
  intros Hinv%reachable_farm_inv Ht Hk Hnone Hg He ready s1 s2 s3 s4.
  assert (s1 = growing s x z now rnd 0 (energy s - 2) water) as Hs1.
  { unfold s1, interactPlot. rewrite handlePlotClick_seed by done.
    rewrite decide_True by (split_and!; (done || lia)). done. }
  assert (s2 = growing s x z now rnd 1 (energy s - 5) water) as Hs2.
  { unfold s2. rewrite Hs1, growing_water by (done || lia).
    f_equal. lia. }
  assert (s3 = growing s x z now rnd 2 (energy s - 8) water) as Hs3.
  { unfold s3. rewrite Hs2, growing_water by (done || lia).
    f_equal. lia. }
  assert (s4 = growing s x z now rnd 3 (energy s - 11) harvest) as Hs4.
  { unfold s4. rewrite Hs3, growing_water by (done || lia).
    unfold growing, selectTool. simpl. f_equal. lia. }
  clearbody s1 s2 s3 s4. subst s1 s2 s3 s4. split.
  - simpl. apply elem_of_app. right. by apply list_elem_of_singleton.
  - unfold interactCrop. rewrite handleCropClick_harvest by done.
    rewrite decide_True by done. simpl. f_equal.
    rewrite filter_app, harvest_others by (intros; by apply (fresh_id s x z)).
    rewrite filter_cons, decide_False by (intros H; by apply H).
    by rewrite filter_nil, app_nil_r.
Qed.

Lemma X12_seed_to_harvest_witness :
  gold (interactCrop
          (selectTool
             (interactPlot
                (interactPlot
                   (interactPlot
                      (selectTool
                         (interactPlot
                            (selectTool (interactPlot initialState 0 0 0 corn)
                               seed)
                            0 0 1000 tomato)
                         water)
                      0 0 1000 tomato)
                   0 0 1000 tomato)
                0 0 1000 tomato)
             harvest)
          (tomatoCrop 3)) = 540.
Proof.
  pose (s := selectTool (interactPlot initialState 0 0 0 corn) seed).
  assert (reachable s) as Hs.
  { apply (reachable_step _ (SelectTool seed)); [|done].
    apply (reachable_step _ (PlotClick 0 0 0 corn)); [constructor|done]. }
  pose proof (X12_seed_to_harvest s 0 0 1000 tomato
                1000 1000 1000 tomato tomato tomato Hs eq_refl) as H.
  cbv zeta in H. destruct H as [_ Heq].
  - vm_compute. reflexivity.
  - reflexivity.
  - vm_compute. discriminate.
  - vm_compute. discriminate.
  - change (tomatoCrop 3)
      with (CropData.with_stage (plantedCrop s 0 0 1000 tomato) 3).
    fold s. rewrite Heq. reflexivity.
Defined.

(** * Prices *)

(** X13.  The price list of the game: an event either changes neither
    gold nor energy, or it tills (5 energy), plants (20 gold and 2
    energy), waters (3 energy), harvests (gold grows by the price of the
    clicked crop's type, energy untouched) or sleeps (energy becomes 100,
    gold untouched). *)
Theorem X13_price_list (s : GameState) (e : Event) :
  (gold (step s e) = gold s ∧ energy (step s e) = energy s)
  ∨ (selectedTool s = hoe
     ∧ gold (step s e) = gold s ∧ energy (step s e) = energy s - 5)
  ∨ (selectedTool s = seed
     ∧ gold (step s e) = gold s - 20 ∧ energy (step s e) = energy s - 2)
  ∨ (selectedTool s = water
     ∧ gold (step s e) = gold s ∧ energy (step s e) = energy s - 3)
  ∨ (∃ crop, e = CropClick crop ∧ selectedTool s = harvest
     ∧ gold (step s e) = gold s + CROP_PRICES (CropData.type crop)
     ∧ energy (step s e) = energy s)
  ∨ (e = NextDay ∧ gold (step s e) = gold s ∧ energy (step s e) = 100).
Proof.
  destruct e as [tool|x z now rnd|crop|]; simpl.
  - by left.
  - unfold interactPlot.
    destruct (handlePlotClick_cases s x z now rnd)
      as [->|[(-> & ? & ?)|[(-> & ? & ?)|(c & -> & ? & ?)]]]; simpl.
    + by left.
    + right; left. done.
    + right; right; left. done.
    + right; right; right; left. done.
  - unfold interactCrop.
    destruct (handleCropClick_cases s crop)
      as [->|[(-> & ? & ?)|(-> & ? & ?)]]; simpl.
    + by left.
    + do 4 right. left. by exists crop.
    + right; right; right; left. done.
  - do 5 right. done.
Qed.

(** * The calendar *)

Lemma run_app s evs evs' : run s (evs ++ evs') = run (run s evs) evs'.
Proof. unfold run. apply foldl_app. Qed.

Lemma run_day s evs :
  day (run s evs) = day s + Z.of_nat (length (filter (λ e, isNextDay e = true) evs)).
Proof.
  revert s. induction evs as [|e evs IH]; intros s; simpl; [lia|].
  rewrite IH, filter_cons. destruct e; simpl.
  - lia.
  - destruct (step_clock s (PlotClick x z now rnd)) as [Hd _]; [done|].
    simpl in Hd. rewrite Hd. lia.
  - destruct (step_clock s (CropClick crop)) as [Hd _]; [done|].
    simpl in Hd. rewrite Hd. lia.
  - lia.
Qed.

Lemma run_clock evs :
  1 ≤ day (run initialState evs)
  ∧ season (run initialState evs)
    = seasons !! Z.to_nat (((day (run initialState evs) - 1) `div` 28) `mod` 4).
Proof.
  induction evs as [|e evs IH] using rev_ind; [by split|].
  rewrite run_app. simpl. destruct IH as [Hd Hs].
  assert (e = NextDay ∨ e ≠ NextDay) as [->|He]
    by (destruct e; (by left) || (by right)).
  - simpl. split; [lia|].
    destruct (advanceDay_season (run initialState evs)) as [Heq _]; [lia|].
    exact Heq.
  - destruct (step_clock (run initialState evs) e He) as [-> ->]. done.
Qed.

(** X14.  The day counts the nights slept: after any run the day is the
    day of the start plus the number of sleep events in the run, whatever
    else happened in between, and from the initial state the season is
    the one that this number of nights gives. *)
Theorem X14_day_counts_sleeps (s : GameState) (evs : list Event) :
  let nights := length (filter (λ e, isNextDay e = true) evs) in
  day (run s evs) = day s + Z.of_nat nights
  ∧ season (run initialState evs) = seasons !! ((nights / 28) `mod` 4)%nat.
Proof.
  intros nights. split; [apply run_day|].
  destruct (run_clock evs) as [_ ->]. rewrite run_day. fold nights.
  change (day initialState) with 1.
  replace (1 + Z.of_nat nights - 1) with (Z.of_nat nights) by lia.
  f_equal. rewrite <-(Nat2Z.id ((nights / 28) `mod` 4)). f_equal.
  by rewrite Nat2Z.inj_mod, Nat2Z.inj_div.
Qed.

(** * A day's energy *)

Lemma step_energy_nonneg s e : 0 ≤ energy s → 0 ≤ energy (step s e).
Proof.
  intros He. destruct e as [tool|x z now rnd|crop|]; simpl; [done| | |lia].
  - unfold interactPlot.
    destruct (handlePlotClick_cases s x z now rnd)
      as [->|[(-> & ?)|[(-> & ?)|(c & -> & ?)]]]; simpl; lia.
  - unfold interactCrop.
    destruct (handleCropClick_cases s crop)
      as [->|[(-> & ?)|(-> & ?)]]; simpl; lia.
Qed.

Lemma step_till_budget s e :
  isNextDay e = false →
  5 * Z.of_nat (size (tiledPlots (step s e))) + energy (step s e)
  ≤ 5 * Z.of_nat (size (tiledPlots s)) + energy s.
Proof.
  intros He. destruct e as [tool|x z now rnd|crop|]; simpl; [done| | |done].
  - unfold interactPlot.
    destruct (handlePlotClick_cases s x z now rnd)
      as [->|[(-> & _ & Hk & _)|[(-> & ?)|(c & -> & ?)]]]; simpl; try lia.
    rewrite size_union by set_solver. rewrite size_singleton. lia.
  - unfold interactCrop.
    destruct (handleCropClick_cases s crop)
      as [->|[(-> & ?)|(-> & ?)]]; simpl; lia.
Qed.

Lemma run_till_budget s evs :
  Forall (λ e, isNextDay e = false) evs → 0 ≤ energy s →
  0 ≤ energy (run s evs)
  ∧ 5 * Z.of_nat (size (tiledPlots (run s evs))) + energy (run s evs)
    ≤ 5 * Z.of_nat (size (tiledPlots s)) + energy s.
Proof.
  intros Hall. revert s.
  induction Hall as [|e evs He _ IH]; simpl; intros s Hen; [lia|].
  destruct (IH (step s e)) as [H0 Hle]; [by apply step_energy_nonneg|].
  pose proof (step_till_budget s e He). lia.
Qed.

(** X15.  Between two nights tilling is paid in full: along a run without
    a sleep event that starts with energy between 0 and 100, five times
    the number of newly tilled plots is at most the energy spent, so at
    most 20 plots are tilled in one day. *)
Theorem X15_tilling_budget (s : GameState) (evs : list Event) :
  Forall (λ e, isNextDay e = false) evs → 0 ≤ energy s ≤ 100 →
  5 * (Z.of_nat (size (tiledPlots (run s evs)))
       - Z.of_nat (size (tiledPlots s)))
  ≤ energy s - energy (run s evs)
  ∧ (size (tiledPlots (run s evs)) ≤ size (tiledPlots s) + 20)%nat.
Proof.
  intros Hall He.
  destruct (run_till_budget s evs Hall) as [H0 Hle]; lia.
Qed.

Lemma X15_tilling_budget_witness :
  (size (tiledPlots (run initialState
           ((λ z, PlotClick 0 z 0 corn) <$> seqZ 0 30)))
   ≤ size (tiledPlots initialState) + 20)%nat.
Proof.
  destruct (X15_tilling_budget initialState
              ((λ z, PlotClick 0 z 0 corn) <$> seqZ 0 30)) as [_ Hn].
  - apply Forall_fmap, Forall_forall. done.
  - simpl. lia.
  - exact Hn.
Defined.

(** * What happens to a crop *)

(** X16.  In a reachable state an offered event leaves every crop in the
    field with its id, position, type and planting day, and with its
    stage either unchanged or, under the watering can, raised by one; the
    only exception is the crop clicked with the harvest tool at stage 3,
    which is removed. *)
Theorem X16_crop_fate (s : GameState) (e : Event) (c : CropData.t) :
  reachable s → enabled s e → c ∈ crops s →
  (∃ c', c' ∈ crops (step s e)
         ∧ CropData.id c' = CropData.id c
         ∧ CropData.x c' = CropData.x c ∧ CropData.z c' = CropData.z c
         ∧ CropData.type c' = CropData.type c
         ∧ CropData.plantedDay c' = CropData.plantedDay c
         ∧ (CropData.stage c' = CropData.stage c
            ∨ (CropData.stage c' = CropData.stage c + 1
               ∧ selectedTool s = water)))
  ∨ (e = CropClick c ∧ selectedTool s = harvest ∧ CropData.stage c = 3
     ∧ c ∉ crops (step s e)).
Proof.
  intros Hinv%reachable_farm_inv He Hc.
  assert (∀ target, selectedTool s = water →
            (∀ c0, c0 ∈ crops s → CropData.id c0 = target →
                   CropData.stage c0 < 3) →
            ∃ c', c' ∈ crops (applyUpdate (WaterCrop target) s)
              ∧ CropData.id c' = CropData.id c
              ∧ CropData.x c' = CropData.x c ∧ CropData.z c' = CropData.z c
              ∧ CropData.type c' = CropData.type c
              ∧ CropData.plantedDay c' = CropData.plantedDay c
              ∧ (CropData.stage c' = CropData.stage c
                 ∨ (CropData.stage c' = CropData.stage c + 1
                    ∧ selectedTool s = water))) as Hwater.
  { intros target Ht Hlow. exists (watered target c). split.
    - rewrite crops_water. by apply list_elem_of_fmap_2.
    - unfold watered. case_decide as Hid; [|by split_and!; try left].
      simpl. split_and!; try done. right. split; [|done].
      specialize (Hlow c Hc Hid). lia. }
  assert (∃ c', c' ∈ crops s
            ∧ CropData.id c' = CropData.id c
            ∧ CropData.x c' = CropData.x c ∧ CropData.z c' = CropData.z c
            ∧ CropData.type c' = CropData.type c
            ∧ CropData.plantedDay c' = CropData.plantedDay c
            ∧ (CropData.stage c' = CropData.stage c
               ∨ (CropData.stage c' = CropData.stage c + 1
                  ∧ selectedTool s = water))) as Hsame.
  { exists c. split_and!; try done. by left. }
  destruct e as [tool|x z now rnd|crop|]; simpl.
  - by left.
  - left. unfold interactPlot.
    destruct (handlePlotClick_cases s x z now rnd)
      as [->|[(-> & ?)|[(-> & ?)|(c0 & -> & Ht & Hat & Hst & _)]]].
    + done.
    + done.
    + destruct Hsame as (c' & Hc' & Hrest). exists c'.
      split; [|done]. simpl. apply elem_of_app. by left.
    + apply Hwater; [done|]. intros c1 Hc1 Hid.
      apply cropAt_Some in Hat as [Hc0 _].
      by rewrite (farm_inv_id_inj s c1 c0 Hinv Hc1 Hc0 Hid).
  - simpl in He. unfold interactCrop.
    destruct (handleCropClick_cases s crop)
      as [->|[(-> & Ht & Hst)|(-> & Ht & Hst & _)]].
    + by left.
    + destruct (decide (c = crop)) as [->|Hne].
      * right. split_and!; try done. simpl.
        intros [Hid _]%list_elem_of_filter. done.
      * left. exists c. split_and!; try done; [|by left]. simpl.
        apply list_elem_of_filter. split; [|done].
        intros Hid. apply Hne. by apply (farm_inv_id_inj s).
    + left. apply Hwater; [done|]. intros c1 Hc1 Hid.
      by rewrite (farm_inv_id_inj s c1 crop Hinv Hc1 He Hid).
  - by left.
Qed.

Lemma X16_crop_fate_witness :
  ∃ c', c' ∈ crops (step (run initialState (tomatoTrace 1))
                      (PlotClick 0 0 7 corn))
        ∧ CropData.stage c' = 2.
Proof.
  destruct (X16_crop_fate (run initialState (tomatoTrace 1))
              (PlotClick 0 0 7 corn) (tomatoCrop 1)
              (tomatoTrace_reachable 1) I)
    as [(c' & Hc' & _ & _ & _ & _ & _ & Hst)|(Heq & _)].
  - vm_compute. left.
  - exists c'. split; [done|]. destruct Hst as [Hst|[Hst _]].
    + vm_compute in Hc'. apply list_elem_of_singleton in Hc'.
      by rewrite Hc'.
    + exact Hst.
  - discriminate Heq.
Defined.

(** * Crop objects that are no longer in the field *)

(** X17.  [handleCropClick] trusts the crop object it is given.  For a
    crop whose id no crop of the state carries, a harvest click at stage
    3 still pays the price and removes nothing, and a water click below
    stage 3 still costs 3 energy and grows nothing. *)
Theorem X17_absent_crop_is_not_checked (s : GameState) (crop : CropData.t) :
  (∀ c, c ∈ crops s → CropData.id c ≠ CropData.id crop) →
  (selectedTool s = harvest → CropData.stage crop = 3 →
     interactCrop s crop =
       {| day := day s; season := season s;
          gold := gold s + CROP_PRICES (CropData.type crop);
          energy := energy s; selectedTool := selectedTool s;
          crops := crops s; tiledPlots := tiledPlots s |})
  ∧ (selectedTool s = water → CropData.stage crop < 3 → 3 ≤ energy s →
     interactCrop s crop =
       {| day := day s; season := season s; gold := gold s;
          energy := energy s - 3; selectedTool := selectedTool s;
          crops := crops s; tiledPlots := tiledPlots s |}).
Proof.
  intros Hne. split.
  - intros Ht Hst. unfold interactCrop.
    rewrite handleCropClick_harvest, decide_True by done. simpl.
    by rewrite harvest_others.
  - intros Ht Hst He. unfold interactCrop.
    rewrite handleCropClick_water, decide_True by done. simpl.
    by rewrite water_others.
Qed.

Lemma X17_absent_crop_is_not_checked_witness :
  gold (interactCrop
          (interactCrop (selectTool (run initialState (tomatoTrace 3)) harvest)
             (tomatoCrop 3))
          (tomatoCrop 3)) = 600.
Proof.
  pose (s := interactCrop
               (selectTool (run initialState (tomatoTrace 3)) harvest)
               (tomatoCrop 3)).
  destruct (X17_absent_crop_is_not_checked s (tomatoCrop 3)) as [Hh _].
  - intros c Hc. vm_compute in Hc. by apply elem_of_nil in Hc.
  - fold s. rewrite Hh; reflexivity.
Defined.
